(** * NeovimEditor: the editor-integration class of the Oni front-end

    A shallow embedding of [browser/src/Editor/NeovimEditor.tsx].  The class
    is an event adapter: every listener it registers becomes a computation in
    a small state/trace/exception monad over a [World] that holds the
    instance's own fields together with the mutable objects it shares with
    its collaborators (the screen model, the view-state store, the
    configuration, the DOM, the timer queue).  Calls into collaborators that
    live outside this file are recorded, in order, as [Effect]s. *)

From stdpp Require Import gmap strings list.
From Stdlib Require Import Ascii ZArith QArith.QArith_base.

Local Close Scope Q_scope.
Local Open Scope string_scope.
Local Open Scope list_scope.

(** ** JavaScript values *)

#[local] Set Warnings "-register-all".

(** The values that cross the untyped ([any]) boundaries of the class:
    configuration values, event payloads, error strings. *)
Inductive JsValue : Type :=
| JUndefined
| JNull
| JBool (b : bool)
| JNum (q : Q)
| JStr (s : string)
| JArr (items : list JsValue)
| JObj (props : list (string * JsValue)).

(** What [if (v)], [!v] and [v || d] test.  (NaN is not represented.) *)
Definition truthy (v : JsValue) : bool :=
  match v with
  | JUndefined | JNull => false
  | JBool b => b
  | JNum q => negb (Qeq_bool q (Qmake 0 1))
  | JStr s => negb (String.eqb s "")
  | JArr _ | JObj _ => true
  end.

(** [a || b] *)
Definition js_or (a b : JsValue) : JsValue := if truthy a then a else b.

Definition dquote : string := String (Ascii.ascii_of_nat 34) EmptyString.
Definition backslash : string := String (Ascii.ascii_of_nat 92) EmptyString.
Definition newline : Ascii.ascii := Ascii.ascii_of_nat 10.

(** [s.startsWith(p)] *)
Definition startsWith (s p : string) : bool := String.prefix p s.

(** [s.split(sep)] for a one-character separator. *)
Fixpoint split_at (sep : Ascii.ascii) (s : string) (cur : string) : list string :=
  match s with
  | EmptyString => [cur]
  | String c rest =>
      if Ascii.eqb c sep then cur :: split_at sep rest ""
      else split_at sep rest (cur +:+ String c EmptyString)
  end.

Definition split (s : string) (sep : Ascii.ascii) : list string := split_at sep s "".

(** ** The objects the editor shares with its collaborators *)

(** DOM elements are referred to by identity; what a reference denotes is
    read from the document at the time of the access. *)
Definition ElemRef := nat.

Record HTMLElement : Type := {
  offsetWidth : Z;
  offsetHeight : Z;
  parentElement : option ElemRef
}.

(** The fields of [NeovimScreen] this class reads. *)
Record NeovimScreen : Type := {
  mode : string;
  foregroundColor : string;
  backgroundColor : string
}.

(** [NeovimScreen] is not part of this file: a screen action is represented
    by the update that [screen.dispatch(action)] performs on the model. *)
Definition Action := NeovimScreen -> NeovimScreen.

(** Browser timer handles are positive integers, hence always truthy. *)
Definition TimerId := positive.

Record LogEntry : Type := {
  log_type : string;
  log_message : string;
  log_details : option (list string)
}.

(** [Error] objects as produced by the runtime: a message and a stack. *)
Record JsError : Type := {
  message : string;
  stack : string
}.

Record Rectangle : Type := {
  rect_x : Z; rect_y : Z; rect_width : Z; rect_height : Z
}.

Record ReferencesResultItem : Type := {
  fullPath : string;
  line : Z;
  column : Z;
  lineText : string
}.

Record ReferencesResult : Type := {
  tokenName : string;
  items : list ReferencesResultItem
}.

Record QuickFixItem : Type := {
  filename : string;
  lnum : Z;
  col : Z;
  text : string
}.

Record Marker : Type := {
  marker_line : JsValue;
  marker_height : Z;
  marker_color : JsValue
}.

(** [path.resolve(p)] depends on the process working directory and is kept
    symbolic. *)
Inductive Path : Type := path_resolve (p : string).

(** ** Calls into collaborators *)

(** The action creators under [UI.Actions] that this class dispatches. *)
Inductive UIAction : Type :=
| SetActiveWindowDimensions (r : Rectangle)
| HideSignatureHelp
| ShowSignatureHelp (signatureHelp : JsValue)
| SetColors (fg bg : string)
| MakeLog (entry : LogEntry)
| HidePopupMenu
| SelectMenuItem (openInSplit : bool)
| NextMenuItem
| PreviousMenuItem
| NextCompletion
| PreviousCompletion
| HideCompletions
| SetMode (newMode : string)
| ShowCursorLine
| ShowCursorColumn
| HideCursorLine
| HideCursorColumn
| HideQuickInfo
| SetCursorLineOpacity (v : JsValue)
| SetCursorColumnOpacity (v : JsValue)
| SetCursorPosition (scr : NeovimScreen).

(** Methods of [NeovimInstance], the channel to the embedded editor
    process. *)
Inductive NeovimCall : Type :=
| Nv_start (filesToOpen : list string)
| Nv_resize (width height : Z)
| Nv_input (key : string)
| Nv_command (cmd : string)
| Nv_setFont (fontFamily fontSize : JsValue)
| Nv_setqflist (qf : list QuickFixItem) (title : string)
| Nv_getCurrentWorkingDirectory.

(** Everything the class asks of the outside, one constructor per call
    site shape.  [Renderer_update scr] is
    [this._renderer.update(this._screen, this._deltaRegionManager)] with the
    screen as it is at the call; the two [DeltaRegion_] effects are the
    calls on that same tracker; [ReactDOM_render_InstallHelp c] is
    [ReactDOM.render(<InstallHelp />, c)]. *)
Inductive Effect : Type :=
| Dispatch (a : UIAction)
| Neovim (c : NeovimCall)
| Renderer_start (el : ElemRef)
| Renderer_onAction (a : Action)
| Renderer_onResize
| Renderer_update (scr : NeovimScreen)
| DeltaRegion_dirtyAllCells
| DeltaRegion_cleanUpRenderedCells
| ReactDOM_render_InstallHelp (container : option ElemRef)
| SetTimeout_onUpdate (id : TimerId)
| ClearTimeout (id : TimerId)
| RequestAnimationFrame_render
| Errors_setErrors (fileName : string) (errors : list JsValue)
| ErrorOverlay_setErrors (key fileName : string) (errors : list JsValue) (color : JsValue)
| ErrorOverlay_onVimEvent (eventName : string) (evt : JsValue)
| ErrorOverlay_hideDetails
| ErrorOverlay_showDetails
| LiveEvaluationOverlay_setLiveEvaluationResult (file : string) (blocks : list JsValue)
| LiveEvaluationOverlay_onVimEvent (eventName : string) (evt : JsValue)
| ScrollBarOverlay_setMarkers (file : Path) (key : string) (markers : list Marker)
| ScrollBarOverlay_onBufferUpdate (context : JsValue) (lines : list string)
| ScrollBarOverlay_onVimEvent (eventName : string) (evt : JsValue)
| OverlayManager_notifyWindowDimensionsChanged (eventContext lineMapping : JsValue)
| RegisterBuiltInCommands
| Tasks_registerTaskProvider (provider : string)
| OverlayManager_addOverlay (name : string)
| Tasks_onEvent (evt : JsValue)
| Tasks_show
| Formatter_formatBuffer
| AutoCompletion_complete
| QuickOpen_show
| MultiProcess_focusPreviousInstance
| MultiProcess_focusNextInstance
| CommandManager_executeCommand (name : string) (args : JsValue)
| Mouse_new (el : ElemRef)
| Process_chdir (dir : string).

(** ** The view-state store *)

(** Modelled from the spec: the view-state store behind [UI.Actions] and
    [UI.Selectors] ([browser/src/UI], not part of this file).  The spec
    describes it as the store the adapters dispatch UI actions to: overlays
    that are shown or hidden, and a log panel that collects log entries.
    Only the slices the editor class shows, hides or reads are kept; a
    [show]/[hide] action sets the visibility it names, [makeLog] appends to
    the log panel, and the remaining actions belong to slices that are not
    represented. *)
Record ViewState : Type := {
  cursorLineVisible : bool;
  cursorColumnVisible : bool;
  popupMenuVisible : bool;
  completionsVisible : bool;
  signatureHelpVisible : bool;
  quickInfoVisible : bool;
  logs : list LogEntry
}.

(** Modelled from the spec: the reducer of the view-state store (see
    [ViewState]). *)
Definition reduce (a : UIAction) (v : ViewState) : ViewState :=
  let mk cl cc pm co sh qi lg :=
    {| cursorLineVisible := cl; cursorColumnVisible := cc;
       popupMenuVisible := pm; completionsVisible := co;
       signatureHelpVisible := sh; quickInfoVisible := qi; logs := lg |} in
  let cl := cursorLineVisible v in
  let cc := cursorColumnVisible v in
  let pm := popupMenuVisible v in
  let co := completionsVisible v in
  let sh := signatureHelpVisible v in
  let qi := quickInfoVisible v in
  let lg := logs v in
  match a with
  | ShowCursorLine => mk true cc pm co sh qi lg
  | HideCursorLine => mk false cc pm co sh qi lg
  | ShowCursorColumn => mk cl true pm co sh qi lg
  | HideCursorColumn => mk cl false pm co sh qi lg
  | HidePopupMenu => mk cl cc false co sh qi lg
  | HideCompletions => mk cl cc pm false sh qi lg
  | ShowSignatureHelp _ => mk cl cc pm co true qi lg
  | HideSignatureHelp => mk cl cc pm co false qi lg
  | HideQuickInfo => mk cl cc pm co sh false lg
  | MakeLog entry => mk cl cc pm co sh qi (lg ++ [entry])
  | _ => v
  end.

(** ** The editor instance and its world *)

(** The private fields of the class that are not collaborators. *)
Record NeovimEditor : Type := {
  _pendingTimeout : option TimerId;
  _element : option ElemRef;
  _cursorLine : JsValue;
  _cursorColumn : JsValue;
  _errorStartingNeovim : bool
}.

Record World : Type := {
  this : NeovimEditor;
  _screen : NeovimScreen;
  store : ViewState;
  _config : gmap string JsValue;
  document : ElemRef -> HTMLElement;
  (** scheduled, not yet fired [setTimeout(() => this._onUpdate(), 0)] *)
  timers : list TimerId;
  nextTimer : TimerId;
  (** queued [requestAnimationFrame(() => this._render())] callbacks *)
  animationFrameCallbacks : nat
}.

Definition with_this (f : NeovimEditor -> NeovimEditor) (w : World) : World :=
  {| this := f (this w); _screen := _screen w; store := store w;
     _config := _config w; document := document w; timers := timers w;
     nextTimer := nextTimer w;
     animationFrameCallbacks := animationFrameCallbacks w |}.

Definition with_screen (f : NeovimScreen -> NeovimScreen) (w : World) : World :=
  {| this := this w; _screen := f (_screen w); store := store w;
     _config := _config w; document := document w; timers := timers w;
     nextTimer := nextTimer w;
     animationFrameCallbacks := animationFrameCallbacks w |}.

Definition with_store (f : ViewState -> ViewState) (w : World) : World :=
  {| this := this w; _screen := _screen w; store := f (store w);
     _config := _config w; document := document w; timers := timers w;
     nextTimer := nextTimer w;
     animationFrameCallbacks := animationFrameCallbacks w |}.

Definition with_config (c : gmap string JsValue) (w : World) : World :=
  {| this := this w; _screen := _screen w; store := store w;
     _config := c; document := document w; timers := timers w;
     nextTimer := nextTimer w;
     animationFrameCallbacks := animationFrameCallbacks w |}.

Definition with_document (d : ElemRef -> HTMLElement) (w : World) : World :=
  {| this := this w; _screen := _screen w; store := store w;
     _config := _config w; document := d; timers := timers w;
     nextTimer := nextTimer w;
     animationFrameCallbacks := animationFrameCallbacks w |}.

Definition with_timers (f : list TimerId -> list TimerId) (w : World) : World :=
  {| this := this w; _screen := _screen w; store := store w;
     _config := _config w; document := document w; timers := f (timers w);
     nextTimer := nextTimer w;
     animationFrameCallbacks := animationFrameCallbacks w |}.

Definition with_nextTimer (n : TimerId) (w : World) : World :=
  {| this := this w; _screen := _screen w; store := store w;
     _config := _config w; document := document w; timers := timers w;
     nextTimer := n;
     animationFrameCallbacks := animationFrameCallbacks w |}.

Definition with_animationFrameCallbacks (n : nat) (w : World) : World :=
  {| this := this w; _screen := _screen w; store := store w;
     _config := _config w; document := document w; timers := timers w;
     nextTimer := nextTimer w;
     animationFrameCallbacks := n |}.

Definition set_pendingTimeout (t : option TimerId) (e : NeovimEditor) : NeovimEditor :=
  {| _pendingTimeout := t; _element := _element e;
     _cursorLine := _cursorLine e; _cursorColumn := _cursorColumn e;
     _errorStartingNeovim := _errorStartingNeovim e |}.

Definition set_element (el : option ElemRef) (e : NeovimEditor) : NeovimEditor :=
  {| _pendingTimeout := _pendingTimeout e; _element := el;
     _cursorLine := _cursorLine e; _cursorColumn := _cursorColumn e;
     _errorStartingNeovim := _errorStartingNeovim e |}.

Definition set_cursorLine (v : JsValue) (e : NeovimEditor) : NeovimEditor :=
  {| _pendingTimeout := _pendingTimeout e; _element := _element e;
     _cursorLine := v; _cursorColumn := _cursorColumn e;
     _errorStartingNeovim := _errorStartingNeovim e |}.

Definition set_cursorColumn (v : JsValue) (e : NeovimEditor) : NeovimEditor :=
  {| _pendingTimeout := _pendingTimeout e; _element := _element e;
     _cursorLine := _cursorLine e; _cursorColumn := v;
     _errorStartingNeovim := _errorStartingNeovim e |}.

Definition set_errorStartingNeovim (b : bool) (e : NeovimEditor) : NeovimEditor :=
  {| _pendingTimeout := _pendingTimeout e; _element := _element e;
     _cursorLine := _cursorLine e; _cursorColumn := _cursorColumn e;
     _errorStartingNeovim := b |}.

(** ** The handler monad: state, effect trace, exceptions *)

Inductive Exn : Type :=
| TypeError (what : string).

Inductive Outcome (A : Type) : Type :=
| Returned (a : A)
| Thrown (e : Exn).
Arguments Returned {A} a.
Arguments Thrown {A} e.

Record Run (A : Type) : Type := {
  outcome : Outcome A;
  after : World;
  emitted : list Effect
}.
Arguments outcome {A} r.
Arguments after {A} r.
Arguments emitted {A} r.

Definition M (A : Type) : Type := World -> Run A.

Definition ret {A} (a : A) : M A :=
  fun w => {| outcome := Returned a; after := w; emitted := [] |}.

Definition bind {A B} (m : M A) (k : A -> M B) : M B :=
  fun w =>
    match m w with
    | Build_Run _ (Returned a) w1 out1 =>
        match k a w1 with
        | Build_Run _ o w2 out2 =>
            {| outcome := o; after := w2; emitted := out1 ++ out2 |}
        end
    | Build_Run _ (Thrown e) w1 out1 =>
        {| outcome := Thrown e; after := w1; emitted := out1 |}
    end.

Notation "'let*' x ':=' m 'in' k" := (bind m (fun x => k))
  (at level 10, x name, m at level 100, k at level 200).
Notation "m >> k" := (bind m (fun _ => k))
  (at level 90, right associativity).

Definition throw {A} (e : Exn) : M A :=
  fun w => {| outcome := Thrown e; after := w; emitted := [] |}.

Definition get : M World :=
  fun w => {| outcome := Returned w; after := w; emitted := [] |}.

Definition modify (f : World -> World) : M unit :=
  fun w => {| outcome := Returned tt; after := f w; emitted := [] |}.

Definition emit (e : Effect) : M unit :=
  fun w => {| outcome := Returned tt; after := w; emitted := [e] |}.

Definition when (b : bool) (m : M unit) : M unit :=
  if b then m else ret tt.

Fixpoint mapM {A B} (f : A -> M B) (l : list A) : M (list B) :=
  match l with
  | [] => ret []
  | x :: xs => let* y := f x in let* ys := mapM f xs in ret (y :: ys)
  end.

Fixpoint repeatM (n : nat) (m : M unit) : M unit :=
  match n with
  | O => ret tt
  | S n' => m >> repeatM n' m
  end.

(** ** Runtime services *)

Definition isSome {A} (o : option A) : bool :=
  match o with Some _ => true | None => false end.

(** Own-property lookup [v.k]; reading a property of [undefined] or [null]
    throws. *)
Definition lookup_prop (k : string) (props : list (string * JsValue)) : JsValue :=
  match List.find (fun p => String.eqb (fst p) k) props with
  | Some p => snd p
  | None => JUndefined
  end.

Definition getProp (v : JsValue) (k : string) : M JsValue :=
  match v with
  | JUndefined | JNull => throw (TypeError ("Cannot read property " +:+ k))
  | JObj props => ret (lookup_prop k props)
  | _ => ret JUndefined
  end.

(** [setTimeout(() => this._onUpdate(), 0)]: a fresh handle, queued. *)
Definition setTimeout_onUpdate : M TimerId :=
  let* w := get in
  let id := nextTimer w in
  modify (fun w => with_nextTimer (Pos.succ id) (with_timers (fun ts => ts ++ [id]) w)) >>
  emit (SetTimeout_onUpdate id) >>
  ret id.

(** [clearTimeout(id)]: the callback, if still queued, will not run. *)
Definition clearTimeout (id : TimerId) : M unit :=
  modify (with_timers (List.filter (fun t => negb (Pos.eqb t id)))) >>
  emit (ClearTimeout id).

(** [window.requestAnimationFrame(() => this._render())] *)
Definition requestAnimationFrame_render : M unit :=
  modify (fun w => with_animationFrameCallbacks (S (animationFrameCallbacks w)) w) >>
  emit RequestAnimationFrame_render.

(** What the configuration holds under a key; a key without a value reads
    as [undefined]. *)
Definition lookup_config (cfg : gmap string JsValue) (key : string) : JsValue :=
  default JUndefined (cfg !! key).

Module Config.

(** [this._config.getValue(key)] *)
Definition getValue (key : string) : M JsValue :=
  let* w := get in
  ret (lookup_config (_config w) key).

End Config.

Module UI.

Definition dispatch (a : UIAction) : M unit :=
  modify (with_store (reduce a)) >> emit (Dispatch a).

Module Actions.
Definition setActiveWindowDimensions r := dispatch (SetActiveWindowDimensions r).
Definition hideSignatureHelp := dispatch HideSignatureHelp.
Definition showSignatureHelp sh := dispatch (ShowSignatureHelp sh).
Definition setColors fg bg := dispatch (SetColors fg bg).
Definition makeLog entry := dispatch (MakeLog entry).
Definition hidePopupMenu := dispatch HidePopupMenu.
Definition selectMenuItem b := dispatch (SelectMenuItem b).
Definition nextMenuItem := dispatch NextMenuItem.
Definition previousMenuItem := dispatch PreviousMenuItem.
Definition nextCompletion := dispatch NextCompletion.
Definition previousCompletion := dispatch PreviousCompletion.
Definition hideCompletions := dispatch HideCompletions.
Definition setMode m := dispatch (SetMode m).
Definition showCursorLine := dispatch ShowCursorLine.
Definition showCursorColumn := dispatch ShowCursorColumn.
Definition hideCursorLine := dispatch HideCursorLine.
Definition hideCursorColumn := dispatch HideCursorColumn.
Definition hideQuickInfo := dispatch HideQuickInfo.
Definition setCursorLineOpacity v := dispatch (SetCursorLineOpacity v).
Definition setCursorColumnOpacity v := dispatch (SetCursorColumnOpacity v).
Definition setCursorPosition scr := dispatch (SetCursorPosition scr).
End Actions.

Module Selectors.
Definition isPopupMenuOpen : M bool :=
  let* w := get in ret (popupMenuVisible (store w)).
Definition areCompletionsVisible : M bool :=
  let* w := get in ret (completionsVisible (store w)).
End Selectors.

End UI.

(** [this._neovimInstance.<method>(...)] *)
Definition neovim (c : NeovimCall) : M unit := emit (Neovim c).

(** ** The private methods of [NeovimEditor] *)

Definition _onUpdate : M unit :=
  let* w := get in
  UI.Actions.setCursorPosition (_screen w) >>
  match _pendingTimeout (this w) with
  | Some id =>
      clearTimeout id >>
      modify (with_this (set_pendingTimeout None))
  | None => ret tt
  end.

Definition _onConfigChanged : M unit :=
  let* cl := Config.getValue "editor.cursorLine" in
  modify (with_this (set_cursorLine cl)) >>
  let* cc := Config.getValue "editor.cursorColumn" in
  modify (with_this (set_cursorColumn cc)) >>
  let* lineOpacity := Config.getValue "editor.cursorLineOpacity" in
  UI.Actions.setCursorLineOpacity lineOpacity >>
  let* columnOpacity := Config.getValue "editor.cursorColumnOpacity" in
  UI.Actions.setCursorColumnOpacity columnOpacity >>
  let* w := get in
  when (truthy (_cursorLine (this w))) UI.Actions.showCursorLine >>
  when (truthy (_cursorColumn (this w))) UI.Actions.showCursorColumn >>
  let* fontFamily := Config.getValue "editor.fontFamily" in
  let* fontSize := Config.getValue "editor.fontSize" in
  neovim (Nv_setFont fontFamily fontSize) >>
  _onUpdate.

Definition _onResize : M unit :=
  let* w := get in
  match _element (this w) with
  | Some el =>
      let width := offsetWidth (document w el) in
      let height := offsetHeight (document w el) in
      emit DeltaRegion_dirtyAllCells >>
      neovim (Nv_resize width height) >>
      emit Renderer_onResize
  | None => ret tt
  end.

Definition _render : M unit :=
  let* w := get in
  when (isSome (_pendingTimeout (this w)))
       (UI.Actions.setCursorPosition (_screen w)) >>
  emit (Renderer_update (_screen w)) >>
  emit DeltaRegion_cleanUpRenderedCells >>
  requestAnimationFrame_render.

Definition _onModeChanged (newMode : string) : M unit :=
  UI.Actions.setMode newMode >>
  let* w := get in
  (if String.eqb newMode "normal" then
     when (truthy (_cursorLine (this w))) UI.Actions.showCursorLine >>
     when (truthy (_cursorColumn (this w))) UI.Actions.showCursorColumn >>
     UI.Actions.hideCompletions >>
     UI.Actions.hideSignatureHelp
   else if String.eqb newMode "insert" then
     UI.Actions.hideQuickInfo >>
     when (truthy (_cursorLine (this w))) UI.Actions.showCursorLine >>
     when (truthy (_cursorColumn (this w))) UI.Actions.showCursorColumn
   else if String.eqb newMode "cmdline" then
     UI.Actions.hideCursorColumn >>
     UI.Actions.hideCursorLine >>
     UI.Actions.hideCompletions >>
     UI.Actions.hideQuickInfo
   else ret tt) >>
  (if String.eqb newMode "insert" then emit ErrorOverlay_hideDetails
   else emit ErrorOverlay_showDetails).

Definition _onVimEvent (eventName : string) (evt : JsValue) : M unit :=
  emit (ErrorOverlay_onVimEvent eventName evt) >>
  emit (LiveEvaluationOverlay_onVimEvent eventName evt) >>
  emit (ScrollBarOverlay_onVimEvent eventName evt) >>
  emit (Tasks_onEvent evt) >>
  when (String.eqb eventName "BufEnter")
       (UI.Actions.hideCompletions >>
        UI.Actions.hidePopupMenu >>
        UI.Actions.hideSignatureHelp >>
        UI.Actions.hideQuickInfo) >>
  when (String.eqb eventName "DirChanged")
       (neovim Nv_getCurrentWorkingDirectory).

(** ** The public methods *)

Definition init (filesToOpen : list string) : M unit :=
  neovim (Nv_start filesToOpen).

Definition render (element : ElemRef) : M unit :=
  modify (with_this (set_element (Some element))) >>
  emit (Renderer_start element) >>
  _onResize >>
  emit (Mouse_new element).

(** ** Events and the listeners registered by the constructor *)

(** Events emitted by [this._neovimInstance], the embedded editor process. *)
Inductive NeovimEvent : Type :=
| Ev_event (eventName : string) (evt : JsValue)
| Ev_error (err : string)
| Ev_buffer_update (context : JsValue) (lines : list string)
| Ev_window_display_update (eventContext lineMapping : JsValue)
| Ev_action (action : Action)
| Ev_logInfo (info : string)
| Ev_logWarning (warning : string)
| Ev_logError (err : JsError)
| Ev_mode_change (newMode : string).

(** Everything that can call into the instance once it is constructed. *)
Inductive Event : Type :=
| OverlayManager_current_window_size_changed (dimensionsInPixels : Rectangle)
| PluginManager_signature_help_response (err signatureHelp : JsValue)
| PluginManager_set_errors (key fileName : string) (errors : list JsValue) (color : JsValue)
| PluginManager_find_all_references (references : ReferencesResult)
| LiveEvaluation_evaluate_block_result (file : string) (blocks : list JsValue)
| NeovimInstance (e : NeovimEvent)
| Config_listener (newConfig : gmap string JsValue)
| Keyboard_keydown (key : string)
| Window_resize
| Ipc_menu_item_click (message : string)
| Mouse_mouse (mouseInput : string)
| Timeout_fired (id : TimerId)
| Animation_frame
| WorkingDirectory_resolved (newDirectory : string)
| Call_init (filesToOpen : list string)
| Call_render (element : ElemRef).

Definition on_signature_help_response (err signatureHelp : JsValue) : M unit :=
  if truthy err then UI.Actions.hideSignatureHelp
  else UI.Actions.showSignatureHelp signatureHelp.

Definition on_set_errors (key fileName : string) (errors : list JsValue)
    (color : JsValue) : M unit :=
  emit (Errors_setErrors fileName errors) >>
  let color := js_or color (JStr "red") in
  emit (ErrorOverlay_setErrors key fileName errors color) >>
  let* errorMarkers :=
    mapM (fun e =>
            let* lineNumber := getProp e "lineNumber" in
            ret {| marker_line := lineNumber; marker_height := 1;
                   marker_color := color |}) errors in
  emit (ScrollBarOverlay_setMarkers (path_resolve fileName) key errorMarkers).

Definition convertToQuickFixItem (item : ReferencesResultItem) : QuickFixItem :=
  {| filename := fullPath item; lnum := line item; col := column item;
     text := lineText item |}.

Definition on_find_all_references (references : ReferencesResult) : M unit :=
  let quickFixItems := List.map convertToQuickFixItem (items references) in
  neovim (Nv_setqflist quickFixItems
            (" Find All References: " +:+ tokenName references)) >>
  neovim (Nv_command "copen") >>
  neovim (Nv_command ("execute " +:+ dquote +:+ "normal! /" +:+
                      tokenName references +:+ backslash +:+ "<cr>" +:+ dquote)).

Definition on_error (_err : string) : M unit :=
  modify (with_this (set_errorStartingNeovim true)) >>
  let* w := get in
  match _element (this w) with
  | Some el => emit (ReactDOM_render_InstallHelp (parentElement (document w el)))
  | None => throw (TypeError "Cannot read property parentElement of undefined")
  end.

Definition on_action (action : Action) : M unit :=
  emit (Renderer_onAction action) >>
  modify (with_screen action) >>
  let* w := get in
  UI.Actions.setColors (foregroundColor (_screen w)) (backgroundColor (_screen w)) >>
  match _pendingTimeout (this w) with
  | None =>
      let* id := setTimeout_onUpdate in
      modify (with_this (set_pendingTimeout (Some id)))
  | Some _ => ret tt
  end.

Definition on_logInfo (info : string) : M unit :=
  UI.Actions.makeLog
    {| log_type := "info"; log_message := info; log_details := None |}.

Definition on_logWarning (warning : string) : M unit :=
  UI.Actions.makeLog
    {| log_type := "warning"; log_message := warning; log_details := None |}.

Definition on_logError (err : JsError) : M unit :=
  UI.Actions.makeLog
    {| log_type := "error"; log_message := message err;
       log_details := Some (split (stack err) newline) |}.

Definition on_neovim (e : NeovimEvent) : M unit :=
  match e with
  | Ev_event eventName evt => _onVimEvent eventName evt
  | Ev_error err => on_error err
  | Ev_buffer_update context lines =>
      emit (ScrollBarOverlay_onBufferUpdate context lines)
  | Ev_window_display_update eventContext lineMapping =>
      emit (OverlayManager_notifyWindowDimensionsChanged eventContext lineMapping)
  | Ev_action action => on_action action
  | Ev_logInfo info => on_logInfo info
  | Ev_logWarning warning => on_logWarning warning
  | Ev_logError err => on_logError err
  | Ev_mode_change newMode => _onModeChanged newMode
  end.

(** The tail of the [keydown] listener: editor-level key bindings, and
    otherwise the key goes to the editor process. *)
Definition keydown_bindings (key : string) : M unit :=
  let* w := get in
  if String.eqb key "<f12>" then
    emit (CommandManager_executeCommand "oni.editor.gotoDefinition" JNull)
  else if String.eqb key "<C-p>" && String.eqb (mode (_screen w)) "normal" then
    emit QuickOpen_show
  else if String.eqb key "<C-P>" && String.eqb (mode (_screen w)) "normal" then
    emit Tasks_show
  else if String.eqb key "<C-pageup>" then emit MultiProcess_focusPreviousInstance
  else if String.eqb key "<C-pagedown>" then emit MultiProcess_focusNextInstance
  else neovim (Nv_input key).

Definition on_keydown (key : string) : M unit :=
  if String.eqb key "<f3>" then emit Formatter_formatBuffer
  else
  let* popupMenuOpen := UI.Selectors.isPopupMenuOpen in
  if popupMenuOpen then
    if String.eqb key "<esc>" then UI.Actions.hidePopupMenu
    else if String.eqb key "<enter>" then UI.Actions.selectMenuItem false
    else if String.eqb key "<C-v>" then UI.Actions.selectMenuItem true
    else if String.eqb key "<C-n>" then UI.Actions.nextMenuItem
    else if String.eqb key "<C-p>" then UI.Actions.previousMenuItem
    else ret tt
  else
  let* completionsVisible := UI.Selectors.areCompletionsVisible in
  if completionsVisible then
    if String.eqb key "<enter>" then emit AutoCompletion_complete
    else if String.eqb key "<C-n>" then UI.Actions.nextCompletion
    else if String.eqb key "<C-p>" then UI.Actions.previousCompletion
    else keydown_bindings key
  else keydown_bindings key.

Definition on_menu_item_click (message : string) : M unit :=
  if startsWith message ":" then
    neovim (Nv_command ("exec " +:+ dquote +:+ message +:+ dquote))
  else
    neovim (Nv_command ("exec " +:+ dquote +:+ ":normal! " +:+ message +:+ dquote)).

Definition on_mouse (mouseInput : string) : M unit :=
  UI.Actions.hideCompletions >>
  neovim (Nv_input mouseInput).

(** The event loop delivers one event at a time to the listener registered
    for it.  A fired timeout leaves the timer queue before its callback
    runs; an animation frame runs the callbacks queued for it; the
    configuration service notifies its listener after taking the new
    values. *)
Definition handle (ev : Event) : M unit :=
  match ev with
  | OverlayManager_current_window_size_changed r =>
      UI.Actions.setActiveWindowDimensions r
  | PluginManager_signature_help_response err signatureHelp =>
      on_signature_help_response err signatureHelp
  | PluginManager_set_errors key fileName errors color =>
      on_set_errors key fileName errors color
  | PluginManager_find_all_references references =>
      on_find_all_references references
  | LiveEvaluation_evaluate_block_result file blocks =>
      emit (LiveEvaluationOverlay_setLiveEvaluationResult file blocks)
  | NeovimInstance e => on_neovim e
  | Config_listener newConfig =>
      modify (with_config newConfig) >> _onConfigChanged
  | Keyboard_keydown key => on_keydown key
  | Window_resize => _onResize
  | Ipc_menu_item_click message => on_menu_item_click message
  | Mouse_mouse mouseInput => on_mouse mouseInput
  | Timeout_fired id =>
      modify (with_timers (List.filter (fun t => negb (Pos.eqb t id)))) >>
      _onUpdate
  | Animation_frame =>
      let* w := get in
      modify (with_animationFrameCallbacks 0) >>
      repeatM (animationFrameCallbacks w) _render
  | WorkingDirectory_resolved newDirectory => emit (Process_chdir newDirectory)
  | Call_init filesToOpen => init filesToOpen
  | Call_render element => render element
  end.

(** An event can be delivered only if its source exists: a timeout fires
    only while it is queued, and mouse input comes from the [Mouse] created
    by [render]. *)
Definition enabled (w : World) (ev : Event) : Prop :=
  match ev with
  | Timeout_fired id => In id (timers w)
  | Mouse_mouse _ => _element (this w) <> None
  | _ => True
  end.

(** ** Construction *)

(** Field initialisers of the class. *)
Definition new_fields : NeovimEditor :=
  {| _pendingTimeout := None; _element := None;
     _cursorLine := JBool false; _cursorColumn := JBool false;
     _errorStartingNeovim := false |}.

(** The world a fresh instance is constructed in: the configuration, the
    document and the store are the host's; the screen is the one just
    created by [new NeovimScreen]. *)
Definition fresh (cfg : gmap string JsValue) (doc : ElemRef -> HTMLElement)
    (ui : ViewState) (scr : NeovimScreen) : World :=
  {| this := new_fields; _screen := scr; store := ui; _config := cfg;
     document := doc; timers := []; nextTimer := 1%positive;
     animationFrameCallbacks := 0 |}.

(** The calls the constructor makes on the collaborators it has just
    created, before any listener is registered. *)
Definition wire_collaborators : M unit :=
  emit RegisterBuiltInCommands >>
  emit (Tasks_registerTaskProvider "commandManager") >>
  emit (Tasks_registerTaskProvider "errorService") >>
  emit (OverlayManager_addOverlay "errors") >>
  emit (OverlayManager_addOverlay "live-eval") >>
  emit (OverlayManager_addOverlay "scrollbar").

(** The constructor creates the collaborators, wires them, and registers
    the listeners that [handle] dispatches to; the two methods it calls on
    the instance itself are the first [_render] and the first
    [_onConfigChanged]. *)
Definition constructor : M unit :=
  wire_collaborators >>
  _render >>
  _onConfigChanged.

(** The states an instance can be in: after construction, after any
    deliverable event, and after other components have changed the objects
    they share with it (the store, the document). *)
Inductive reachable : World -> Prop :=
| reach_new cfg doc ui scr :
    reachable (after (constructor (fresh cfg doc ui scr)))
| reach_event w ev :
    reachable w -> enabled w ev -> reachable (after (handle ev w))
| reach_store w ui :
    reachable w -> reachable (with_store (fun _ => ui) w)
| reach_document w doc :
    reachable w -> reachable (with_document doc w).

(** Running a sequence of events, collecting what they emit. *)
Fixpoint run (evs : list Event) (w : World) : World * list Effect :=
  match evs with
  | [] => (w, [])
  | ev :: rest =>
      let r := handle ev w in
      let '(w', out) := run rest (after r) in
      (w', emitted r ++ out)
  end.

(** ** Sample runs *)

Definition emptyView : ViewState :=
  {| cursorLineVisible := false; cursorColumnVisible := false;
     popupMenuVisible := false; completionsVisible := false;
     signatureHelpVisible := false; quickInfoVisible := false; logs := [] |}.

Definition blankScreen : NeovimScreen :=
  {| mode := "normal"; foregroundColor := "#ffffff"; backgroundColor := "#000000" |}.

(** A document in which every element is 800 by 600 and hangs under
    element 0. *)
Definition sampleDocument : ElemRef -> HTMLElement :=
  fun _ => {| offsetWidth := 800; offsetHeight := 600; parentElement := Some 0%nat |}.

Definition sampleConfig : gmap string JsValue :=
  <[ "editor.cursorLine" := JBool true ]>
  (<[ "editor.cursorLineOpacity" := JNum (Qmake 1 10) ]>
  (<[ "editor.fontFamily" := JStr "Consolas" ]>
  (<[ "editor.fontSize" := JStr "14px" ]> ∅))).

(** The instance right after [new NeovimEditor(...)]. *)
Definition constructed : World :=
  after (constructor (fresh sampleConfig sampleDocument emptyView blankScreen)).


(** The constructed instance after [render(element)] on element 7. *)
Definition rendered : World := after (handle (Call_render 7%nat) constructed).

(** The rendered instance after a first screen action: an update is
    pending. *)
Definition updatePending : World :=
  after (handle (NeovimInstance (Ev_action (fun scr => scr))) rendered).

(** The rendered sample instance once another component has opened the
    popup menu. *)
Definition popupOpen : World :=
  with_store (fun v =>
    {| cursorLineVisible := cursorLineVisible v;
       cursorColumnVisible := cursorColumnVisible v;
       popupMenuVisible := true; completionsVisible := completionsVisible v;
       signatureHelpVisible := signatureHelpVisible v;
       quickInfoVisible := quickInfoVisible v; logs := logs v |}) rendered.

(** The sample configuration with the cursor line switched off again, and
    the constructed instance after its listener has been told so. *)
Definition cursorLineOffConfig : gmap string JsValue :=
  <[ "editor.cursorLine" := JBool false ]> sampleConfig.

Definition cursorLineSwitchedOff : World :=
  after (handle (Config_listener cursorLineOffConfig) constructed).

(** ** Framing: what a computation leaves alone *)

(** [keeps R Q m]: whatever the outcome, [m] relates the world it starts in
    to the world it leaves by [R], and everything it emits satisfies [Q]. *)
Definition keeps (R : World -> World -> Prop) (Q : Effect -> Prop) {A} (m : M A) : Prop :=
  forall w, R w (after (m w)) /\ Forall Q (emitted (m w)).

(** Startup failure is recorded, and the install-help screen rendered, by
    nothing but the [error] listener. *)
Definition same_startup_flag (w w' : World) : Prop :=
  _errorStartingNeovim (this w') = _errorStartingNeovim (this w).

Definition not_install_help (e : Effect) : Prop :=
  forall c, e <> ReactDOM_render_InstallHelp c.

(** ** Invariants of the instance *)

Definition any_effect (e : Effect) : Prop := True.

(** The animation-frame queue is left as it was. *)
Definition same_frame_queue (w w' : World) : Prop :=
  animationFrameCallbacks w' = animationFrameCallbacks w.

(** The timer queue and the pending handle are left as they were. *)
Definition same_timers (w w' : World) : Prop :=
  timers w' = timers w /\
  _pendingTimeout (this w') = _pendingTimeout (this w).

(** The configuration and the flags cached from it are left as they were. *)
Definition same_config_cache (w w' : World) : Prop :=
  _config w' = _config w /\
  _cursorLine (this w') = _cursorLine (this w) /\
  _cursorColumn (this w') = _cursorColumn (this w).

(** The queued update timeouts are exactly the one remembered in
    [_pendingTimeout], if any. *)
Definition timers_consistent (w : World) : Prop :=
  timers w = match _pendingTimeout (this w) with
             | Some id => [id]
             | None => []
             end.

(** [_cursorLine] and [_cursorColumn] hold what the configuration says. *)
Definition config_cached (w : World) : Prop :=
  _cursorLine (this w) = lookup_config (_config w) "editor.cursorLine" /\
  _cursorColumn (this w) = lookup_config (_config w) "editor.cursorColumn".

Definition is_setTimeout (e : Effect) : bool :=
  match e with SetTimeout_onUpdate _ => true | _ => false end.

Definition is_setCursorPosition (e : Effect) : bool :=
  match e with Dispatch (SetCursorPosition _) => true | _ => false end.

(** What one [_render] emits in world [w]. *)
Definition render_output (w : World) : list Effect :=
  (if isSome (_pendingTimeout (this w))
   then [Dispatch (SetCursorPosition (_screen w))] else [])
  ++ [ Renderer_update (_screen w); DeltaRegion_cleanUpRenderedCells;
       RequestAnimationFrame_render ].

Definition action_events (actions : list Action) : list Event :=
  List.map (fun a => NeovimInstance (Ev_action a)) actions.

(** ** Further notions used in the properties of the listeners *)

(** The keys that reach the editor process as input: not the formatting
    key, not while the popup menu is open, not a completion key while
    completions are visible, and not one of the editor-level bindings
    ([<C-p>] and [<C-P>] are bindings only in normal mode). *)
Definition forwarded_as_input (key : string) (w : World) : bool :=
  negb (String.eqb key "<f3>")
  && negb (popupMenuVisible (store w))
  && negb (completionsVisible (store w)
           && (String.eqb key "<enter>" || String.eqb key "<C-n>"
               || String.eqb key "<C-p>"))
  && negb (String.eqb key "<f12>")
  && negb ((String.eqb key "<C-p>" || String.eqb key "<C-P>")
           && String.eqb (mode (_screen w)) "normal")
  && negb (String.eqb key "<C-pageup>")
  && negb (String.eqb key "<C-pagedown>").

(** [undefined] and [null], the values whose properties cannot be read. *)
Definition nullish (v : JsValue) : bool :=
  match v with
  | JUndefined | JNull => true
  | _ => false
  end.

(** What [e.lineNumber] evaluates to on a value that is not nullish. *)
Definition lineNumber_of (e : JsValue) : JsValue :=
  match e with
  | JObj props => lookup_prop "lineNumber" props
  | _ => JUndefined
  end.



(** The screen model is left as it was. *)
Definition same_screen (w w' : World) : Prop := _screen w' = _screen w.


Definition not_makeLog (e : Effect) : Prop :=
  forall entry, e <> Dispatch (MakeLog entry).

Definition not_dispatch (e : Effect) : Prop :=
  forall a, e <> Dispatch a.

Definition is_log_event (ev : Event) : bool :=
  match ev with
  | NeovimInstance (Ev_logInfo _)
  | NeovimInstance (Ev_logWarning _)
  | NeovimInstance (Ev_logError _) => true
  | _ => false
  end.

(** [lines.join("\n")] *)
Fixpoint join (lines : list string) (sep : Ascii.ascii) : string :=
  match lines with
  | [] => ""
  | [l] => l
  | l :: rest => l +:+ String sep (join rest sep)
  end.

(** The marker the scrollbar gets for one error. *)
Definition marker_for (color : JsValue) (e : JsValue) : Marker :=
  {| marker_line := lineNumber_of e; marker_height := 1; marker_color := color |}.

Definition not_input (e : Effect) : Prop :=
  forall k, e <> Neovim (Nv_input k).

(** Nothing is required of the world left behind. *)
Definition any_world (w w' : World) : Prop := True.

(** ** Further sample states *)

Definition insertScreen : NeovimScreen :=
  {| mode := "insert"; foregroundColor := "#ffffff"; backgroundColor := "#000000" |}.

(** The rendered instance after the editor process has switched the
    screen to insert mode. *)
Definition typing : World :=
  after (handle (NeovimInstance (Ev_action (fun _ => insertScreen))) rendered).

(** The rendered instance while another component shows completions. *)
Definition completionsShowing : World :=
  with_store (fun v =>
    {| cursorLineVisible := cursorLineVisible v;
       cursorColumnVisible := cursorColumnVisible v;
       popupMenuVisible := popupMenuVisible v; completionsVisible := true;
       signatureHelpVisible := signatureHelpVisible v;
       quickInfoVisible := quickInfoVisible v; logs := logs v |}) rendered.

(** The rendered instance after the editor process failed. *)
Definition failed : World :=
  after (handle (NeovimInstance (Ev_error "spawn nvim ENOENT")) rendered).

Definition sampleError : JsValue := JObj [("lineNumber", JNum (Qmake 3 1))].

(** * Properties *)

(** ** Sample runs, checked *)

Example constructed_emits :
  emitted (constructor (fresh sampleConfig sampleDocument emptyView blankScreen)) =
  [ RegisterBuiltInCommands;
    Tasks_registerTaskProvider "commandManager";
    Tasks_registerTaskProvider "errorService";
    OverlayManager_addOverlay "errors"; OverlayManager_addOverlay "live-eval";
    OverlayManager_addOverlay "scrollbar";
    Renderer_update blankScreen; DeltaRegion_cleanUpRenderedCells;
    RequestAnimationFrame_render;
    Dispatch (SetCursorLineOpacity (JNum (Qmake 1 10)));
    Dispatch (SetCursorColumnOpacity JUndefined);
    Dispatch ShowCursorLine;
    Neovim (Nv_setFont (JStr "Consolas") (JStr "14px"));
    Dispatch (SetCursorPosition blankScreen) ].
Proof. vm_compute. reflexivity. Qed.

Example rendered_emits :
  emitted (handle (Call_render 7%nat) constructed) =
  [ Renderer_start 7%nat; DeltaRegion_dirtyAllCells;
    Neovim (Nv_resize 800 600); Renderer_onResize; Mouse_new 7%nat ].
Proof. vm_compute. reflexivity. Qed.

Example split_lines :
  split ("Error: x" +:+ String newline "  at f" +:+ String newline "  at g") newline =
  ["Error: x"; "  at f"; "  at g"].
Proof. vm_compute. reflexivity. Qed.

(** ** Running binds *)

(** A bind whose first computation returns continues in the world it left,
    after what it emitted. *)
Lemma bind_run {A B} (m : M A) (k : A -> M B) (w : World) (a : A) :
  outcome (m w) = Returned a ->
  outcome (bind m k w) = outcome (k a (after (m w))) /\
  after (bind m k w) = after (k a (after (m w))) /\
  emitted (bind m k w) = emitted (m w) ++ emitted (k a (after (m w))).
Proof.
  intros Hret. unfold bind. destruct (m w) as [o w1 out1]. cbn in Hret. subst o.
  cbn. destruct (k a w1) as [o2 w2 out2]. repeat split.
Qed.

Lemma bind_modify {B} (f : World -> World) (k : unit -> M B) (w : World) :
  outcome (bind (modify f) k w) = outcome (k tt (f w)) /\
  after (bind (modify f) k w) = after (k tt (f w)) /\
  emitted (bind (modify f) k w) = emitted (k tt (f w)).
Proof. exact (bind_run (modify f) k w tt eq_refl). Qed.

(** The world the constructor leaves is the one left by its two method
    calls. *)
Lemma constructor_runs (w : World) :
  outcome (_render w) = Returned tt ->
  after (constructor w) = after (_onConfigChanged (after (_render w))).
Proof.
  intros Hout. unfold constructor.
  destruct (bind_run wire_collaborators (fun _ => _render >> _onConfigChanged)
              w tt eq_refl) as (_ & Ha & _).
  rewrite Ha. change (after (wire_collaborators w)) with w.
  destruct (bind_run _render (fun _ => _onConfigChanged) w tt Hout) as (_ & Ha' & _).
  exact Ha'.
Qed.

(** Evaluate a computation as far as its world is known, keeping the
    tests on configuration values, keys and timer handles folded. *)
Ltac run :=
  cbn -[lookup_config truthy Pos.eqb String.eqb Pos.succ List.filter].

(** ** Framing lemmas *)

Section Framing.

Variable R : World -> World -> Prop.
Variable Q : Effect -> Prop.
Hypothesis R_refl : forall w, R w w.
Hypothesis R_trans : forall a b c, R a b -> R b c -> R a c.

Lemma keeps_ret {A} (a : A) : keeps R Q (ret a).
Proof using R_refl. intros w; split; [apply R_refl | constructor]. Qed.

Lemma keeps_throw {A} (e : Exn) : keeps R Q (@throw A e).
Proof using R_refl. intros w; split; [apply R_refl | constructor]. Qed.

Lemma keeps_get : keeps R Q get.
Proof using R_refl. intros w; split; [apply R_refl | constructor]. Qed.

Lemma keeps_modify (f : World -> World) :
  (forall w, R w (f w)) -> keeps R Q (modify f).
Proof. intros Hf w; split; [apply Hf | constructor]. Qed.

Lemma keeps_emit (e : Effect) : Q e -> keeps R Q (emit e).
Proof using R_refl.
  intros He w; split; [apply R_refl | repeat constructor; exact He].
Qed.

Lemma keeps_bind {A B} (m : M A) (k : A -> M B) :
  keeps R Q m -> (forall a, keeps R Q (k a)) -> keeps R Q (bind m k).
Proof using R_trans.
  intros Hm Hk w. unfold bind.
  destruct (Hm w) as [HR HQ].
  destruct (m w) as [[a | e] w1 out1]; cbn in HR, HQ.
  - destruct (Hk a w1) as [HR' HQ'].
    destruct (k a w1) as [o w2 out2]; cbn in HR', HQ' |- *. split.
    + eapply R_trans; eassumption.
    + apply Forall_app; split; assumption.
  - cbn. split; assumption.
Qed.

Lemma keeps_when (b : bool) (m : M unit) : keeps R Q m -> keeps R Q (when b m).
Proof using R_refl. intros Hm; destruct b; cbn; [exact Hm | apply keeps_ret]. Qed.

Lemma keeps_mapM {A B} (f : A -> M B) (l : list A) :
  (forall a, keeps R Q (f a)) -> keeps R Q (mapM f l).
Proof using R_refl R_trans.
  intros Hf. induction l as [| x xs IH]; cbn [mapM].
  - apply keeps_ret.
  - apply keeps_bind; [apply Hf | intros y].
    apply keeps_bind; [exact IH | intros ys; apply keeps_ret].
Qed.

Lemma keeps_repeatM (n : nat) (m : M unit) : keeps R Q m -> keeps R Q (repeatM n m).
Proof using R_refl R_trans.
  intros Hm. induction n as [| n IH]; cbn [repeatM].
  - apply keeps_ret.
  - apply keeps_bind; [exact Hm | intros _; exact IH].
Qed.

End Framing.

(** Decompose a computation along its binds and branches, given the proofs
    that the relation is a preorder; the leaves that touch the world or emit
    are left as side conditions. *)
Ltac frame_structure refl trans :=
  repeat first
    [ apply (keeps_ret _ _ refl)
    | apply (keeps_throw _ _ refl)
    | apply (keeps_get _ _ refl)
    | apply (keeps_bind _ _ trans); [ | intros ? ]
    | apply (keeps_when _ _ refl)
    | apply (keeps_mapM _ _ refl trans); intros ?
    | apply (keeps_repeatM _ _ refl trans)
    | match goal with
      | |- keeps _ _ (if ?b then _ else _) => destruct b
      | |- keeps _ _ (match ?x with _ => _ end) => destruct x
      end ].

(** The leaves: a world update that respects the relation by computation,
    an emission that satisfies the predicate by constructor clash. *)
Ltac frame_leaves refl :=
  first
    [ apply keeps_modify; intros; first [reflexivity | repeat split; reflexivity]
    | apply (keeps_emit _ _ refl); first [exact I | intros ?; discriminate] ].

Create HintDb editor.
#[local] Hint Unfold handle on_neovim on_signature_help_response on_set_errors
  on_find_all_references on_error on_action on_logInfo on_logWarning
  on_logError on_keydown keydown_bindings on_menu_item_click on_mouse
  _onUpdate _onConfigChanged _onResize _render _onModeChanged _onVimEvent
  init render constructor wire_collaborators getProp setTimeout_onUpdate clearTimeout
  requestAnimationFrame_render Config.getValue neovim
  UI.dispatch UI.Selectors.isPopupMenuOpen UI.Selectors.areCompletionsVisible
  UI.Actions.setActiveWindowDimensions UI.Actions.hideSignatureHelp
  UI.Actions.showSignatureHelp UI.Actions.setColors UI.Actions.makeLog
  UI.Actions.hidePopupMenu UI.Actions.selectMenuItem UI.Actions.nextMenuItem
  UI.Actions.previousMenuItem UI.Actions.nextCompletion
  UI.Actions.previousCompletion UI.Actions.hideCompletions UI.Actions.setMode
  UI.Actions.showCursorLine UI.Actions.showCursorColumn
  UI.Actions.hideCursorLine UI.Actions.hideCursorColumn
  UI.Actions.hideQuickInfo UI.Actions.setCursorLineOpacity
  UI.Actions.setCursorColumnOpacity UI.Actions.setCursorPosition : editor.

Lemma same_startup_flag_refl w : same_startup_flag w w.
Proof. reflexivity. Qed.

Lemma same_startup_flag_trans a b c :
  same_startup_flag a b -> same_startup_flag b c -> same_startup_flag a c.
Proof. unfold same_startup_flag; congruence. Qed.

Lemma other_events_keep_startup_flag ev :
  (forall err, ev <> NeovimInstance (Ev_error err)) ->
  keeps same_startup_flag not_install_help (handle ev).
Proof.
  intros Hne.
  destruct ev as [ | | | | | e | | | | | | | | | | ];
    try (destruct e; [ | exfalso; eapply Hne; reflexivity | | | | | | | ]);
    repeat autounfold with editor;
    frame_structure same_startup_flag_refl same_startup_flag_trans;
    frame_leaves same_startup_flag_refl.
Qed.

(** ** The [error] listener (C1) *)




(** ** Vim events (C2) *)

(** C2: for every vim event named [BufEnter] the listener returns after
    dispatching, in this order after the overlay notifications,
    [hideCompletions], [hidePopupMenu], [hideSignatureHelp] (and
    [hideQuickInfo]); afterwards the completion popup, the popup menu and
    the signature-help overlay are hidden in the store. *)
Theorem bufenter_hides_overlays (evt : JsValue) (w : World) :
  let r := handle (NeovimInstance (Ev_event "BufEnter" evt)) w in
  outcome r = Returned tt /\
  emitted r =
    [ ErrorOverlay_onVimEvent "BufEnter" evt;
      LiveEvaluationOverlay_onVimEvent "BufEnter" evt;
      ScrollBarOverlay_onVimEvent "BufEnter" evt;
      Tasks_onEvent evt;
      Dispatch HideCompletions; Dispatch HidePopupMenu;
      Dispatch HideSignatureHelp; Dispatch HideQuickInfo ] /\
  completionsVisible (store (after r)) = false /\
  popupMenuVisible (store (after r)) = false /\
  signatureHelpVisible (store (after r)) = false.
Proof. cbn zeta. repeat split. Qed.

(** ** Log events (C4) *)



(** ** Menu items (C10) *)

Lemma startsWith_colon (message : string) :
  startsWith message ":" = true <-> exists rest, message = ":" +:+ rest.
Proof.
  unfold startsWith. destruct message as [| c rest].
  - split; [discriminate | intros [rest H]; discriminate H].
  - change (String.prefix ":" (String c rest))
      with (if ascii_dec ":" c then String.prefix "" rest else false).
    destruct (ascii_dec ":" c) as [<- | Hne].
    + split; [intros _; exists rest; reflexivity | intros _; destruct rest; reflexivity].
    + split; [discriminate | intros [rest' H]].
      change (":" +:+ rest') with (String ":" rest') in H.
      injection H as Hc _. exfalso. apply Hne. symmetry. exact Hc.
Qed.

(** C10: a menu-item click whose message starts with [:] runs, in the
    editor process, [exec] of the quoted message itself; any other message
    runs [exec] of the quoted message prefixed by [:normal! ]. *)
Theorem menu_item_click_executes (message : string) (w : World) :
  let r := handle (Ipc_menu_item_click message) w in
  outcome r = Returned tt /\
  after r = w /\
  ((exists rest, message = ":" +:+ rest) ->
     emitted r = [Neovim (Nv_command ("exec " +:+ dquote +:+ message +:+ dquote))]) /\
  ((forall rest, message <> ":" +:+ rest) ->
     emitted r =
     [Neovim (Nv_command ("exec " +:+ dquote +:+ ":normal! " +:+ message +:+ dquote))]).
Proof.
  cbn zeta. cbn [handle]. unfold on_menu_item_click.
  destruct (startsWith message ":") eqn:Hs.
  - repeat split. intros Hno. apply startsWith_colon in Hs as [rest Hrest].
    exfalso. exact (Hno rest Hrest).
  - repeat split. intros Hyes. apply startsWith_colon in Hyes. congruence.
Qed.

Lemma menu_item_click_executes_witness :
  emitted (handle (Ipc_menu_item_click ":tabnew") rendered) =
    [Neovim (Nv_command ("exec " +:+ dquote +:+ ":tabnew" +:+ dquote))] /\
  emitted (handle (Ipc_menu_item_click "gg") rendered) =
    [Neovim (Nv_command ("exec " +:+ dquote +:+ ":normal! " +:+ "gg" +:+ dquote))].
Proof.
  split.
  - apply (menu_item_click_executes ":tabnew" rendered).
    exists "tabnew". reflexivity.
  - apply (menu_item_click_executes "gg" rendered).
    intros rest H. discriminate H.
Defined.

(** ** Keys while the popup menu is open (C9) *)

(** One branch of the key dispatch: what was emitted is known, and each
    conjunct either computes, or is vacuous because the key is another one. *)
Ltac key_case :=
  repeat match goal with |- _ /\ _ => split end;
  first
    [ reflexivity
    | intros k [H | []]; discriminate H
    | intros k []
    | intros H; discriminate H
    | intros _; reflexivity
    | intros H; congruence
    | intros Hnot; exfalso; apply Hnot; cbn; tauto
    | intros _; split; reflexivity ].

(** C9: while the popup menu is open a keydown is never forwarded to the
    editor process as input.  [<f3>] formats the buffer; [<esc>], [<enter>],
    [<C-v>], [<C-n>] and [<C-p>] act on the menu; any other key is consumed
    and changes nothing. *)
Theorem popup_menu_consumes_keys (key : string) (w : World) :
  popupMenuVisible (store w) = true ->
  let r := handle (Keyboard_keydown key) w in
  outcome r = Returned tt /\
  (forall k, ~ In (Neovim (Nv_input k)) (emitted r)) /\
  (key = "<f3>" -> emitted r = [Formatter_formatBuffer]) /\
  (key = "<esc>" -> emitted r = [Dispatch HidePopupMenu]) /\
  (key = "<enter>" -> emitted r = [Dispatch (SelectMenuItem false)]) /\
  (key = "<C-v>" -> emitted r = [Dispatch (SelectMenuItem true)]) /\
  (key = "<C-n>" -> emitted r = [Dispatch NextMenuItem]) /\
  (key = "<C-p>" -> emitted r = [Dispatch PreviousMenuItem]) /\
  (~ In key ["<f3>"; "<esc>"; "<enter>"; "<C-v>"; "<C-n>"; "<C-p>"] ->
     emitted r = [] /\ after r = w).
Proof.
  intros Hopen. cbn zeta. cbn [handle]. unfold on_keydown.
  destruct (String.eqb_spec key "<f3>") as [-> | Hf3].
  { key_case. }
  assert (Hrun : forall m : M unit,
            (let* popupMenuOpen := UI.Selectors.isPopupMenuOpen in
             if popupMenuOpen then m
             else let* completionsVisible := UI.Selectors.areCompletionsVisible in
                  if completionsVisible
                  then if String.eqb key "<enter>" then emit AutoCompletion_complete
                       else if String.eqb key "<C-n>" then UI.Actions.nextCompletion
                       else if String.eqb key "<C-p>" then UI.Actions.previousCompletion
                       else keydown_bindings key
                  else keydown_bindings key) w
            = {| outcome := outcome (m w); after := after (m w);
                 emitted := emitted (m w) |}).
  { intros m. unfold bind at 1. unfold UI.Selectors.isPopupMenuOpen at 1.
    unfold bind at 1. cbn [get ret]. rewrite Hopen.
    destruct (m w) as [[a | e] w1 out1]; reflexivity. }
  rewrite Hrun. clear Hrun. cbn [outcome after emitted].
  destruct (String.eqb_spec key "<esc>") as [-> | Hesc].
  { key_case. }
  destruct (String.eqb_spec key "<enter>") as [-> | Henter].
  { key_case. }
  destruct (String.eqb_spec key "<C-v>") as [-> | Hcv].
  { key_case. }
  destruct (String.eqb_spec key "<C-n>") as [-> | Hcn].
  { key_case. }
  destruct (String.eqb_spec key "<C-p>") as [-> | Hcp].
  { key_case. }
  key_case.
Qed.

Lemma popup_menu_consumes_keys_witness :
  emitted (handle (Keyboard_keydown "<f3>") popupOpen) = [Formatter_formatBuffer] /\
  emitted (handle (Keyboard_keydown "<esc>") popupOpen) = [Dispatch HidePopupMenu] /\
  emitted (handle (Keyboard_keydown "<enter>") popupOpen) = [Dispatch (SelectMenuItem false)] /\
  emitted (handle (Keyboard_keydown "<C-v>") popupOpen) = [Dispatch (SelectMenuItem true)] /\
  emitted (handle (Keyboard_keydown "<C-n>") popupOpen) = [Dispatch NextMenuItem] /\
  emitted (handle (Keyboard_keydown "<C-p>") popupOpen) = [Dispatch PreviousMenuItem] /\
  (emitted (handle (Keyboard_keydown "j") popupOpen) = [] /\
   after (handle (Keyboard_keydown "j") popupOpen) = popupOpen) /\
  ~ In (Neovim (Nv_input "j")) (emitted (handle (Keyboard_keydown "j") popupOpen)).
Proof.
  assert (Hopen : popupMenuVisible (store popupOpen) = true) by reflexivity.
  split; [ | split; [ | split; [ | split; [ | split; [ | split; [ | split ] ] ] ] ] ].
  - apply (popup_menu_consumes_keys "<f3>" popupOpen Hopen). reflexivity.
  - apply (popup_menu_consumes_keys "<esc>" popupOpen Hopen). reflexivity.
  - apply (popup_menu_consumes_keys "<enter>" popupOpen Hopen). reflexivity.
  - apply (popup_menu_consumes_keys "<C-v>" popupOpen Hopen). reflexivity.
  - apply (popup_menu_consumes_keys "<C-n>" popupOpen Hopen). reflexivity.
  - apply (popup_menu_consumes_keys "<C-p>" popupOpen Hopen). reflexivity.
  - apply (popup_menu_consumes_keys "j" popupOpen Hopen).
    cbn. intros H.
    repeat (destruct H as [H | H]; [discriminate H | ]). exact H.
  - apply (popup_menu_consumes_keys "j" popupOpen Hopen).
Defined.

(** ** Start-up and resize (C6) *)

(** C6: [init(filesToOpen)] starts the editor process with exactly
    [filesToOpen] and does nothing else; a window resize, on an instance
    with a host element, dirties all cells and then forwards the element's
    width and height, as the document has them at that moment, to the
    editor process's [resize] (followed by the renderer's [onResize]).
    Without a host element a resize does nothing. *)
Theorem init_starts_and_resize_forwards (w : World) :
  (forall filesToOpen,
     let r := handle (Call_init filesToOpen) w in
     outcome r = Returned tt /\
     emitted r = [Neovim (Nv_start filesToOpen)] /\
     after r = w) /\
  (forall el, _element (this w) = Some el ->
     let r := handle Window_resize w in
     outcome r = Returned tt /\
     emitted r =
       [ DeltaRegion_dirtyAllCells;
         Neovim (Nv_resize (offsetWidth (document w el)) (offsetHeight (document w el)));
         Renderer_onResize ] /\
     after r = w) /\
  (_element (this w) = None ->
     emitted (handle Window_resize w) = [] /\ after (handle Window_resize w) = w).
Proof.
  split; [ | split ].
  - intros filesToOpen. cbn zeta. repeat split.
  - intros el Hel. cbn zeta. run. rewrite Hel. run. repeat split.
  - intros Hel. run. rewrite Hel. run. split; reflexivity.
Qed.

Lemma init_starts_and_resize_forwards_witness :
  emitted (handle Window_resize rendered) =
    [ DeltaRegion_dirtyAllCells; Neovim (Nv_resize 800 600); Renderer_onResize ] /\
  emitted (handle Window_resize constructed) = [].
Proof.
  destruct (init_starts_and_resize_forwards rendered) as (_ & Hresize & _).
  destruct (init_starts_and_resize_forwards constructed) as (_ & _ & Hnone).
  split.
  - apply (Hresize 7%nat). vm_compute. reflexivity.
  - apply Hnone. vm_compute. reflexivity.
Defined.

(** ** Configuration changes (C7) *)

Lemma onConfigChanged_runs (w : World) :
  let cfg := _config w in
  let r := _onConfigChanged w in
  outcome r = Returned tt /\
  emitted r =
    [ Dispatch (SetCursorLineOpacity (lookup_config cfg "editor.cursorLineOpacity"));
      Dispatch (SetCursorColumnOpacity (lookup_config cfg "editor.cursorColumnOpacity")) ]
    ++ (if truthy (lookup_config cfg "editor.cursorLine")
        then [Dispatch ShowCursorLine] else [])
    ++ (if truthy (lookup_config cfg "editor.cursorColumn")
        then [Dispatch ShowCursorColumn] else [])
    ++ [ Neovim (Nv_setFont (lookup_config cfg "editor.fontFamily")
                            (lookup_config cfg "editor.fontSize"));
         Dispatch (SetCursorPosition (_screen w)) ]
    ++ match _pendingTimeout (this w) with
       | Some id => [ClearTimeout id]
       | None => []
       end /\
  _cursorLine (this (after r)) = lookup_config cfg "editor.cursorLine" /\
  _cursorColumn (this (after r)) = lookup_config cfg "editor.cursorColumn" /\
  _pendingTimeout (this (after r)) = None /\
  _config (after r) = cfg /\
  timers (after r) =
    match _pendingTimeout (this w) with
    | Some id => List.filter (fun t => negb (Pos.eqb t id)) (timers w)
    | None => timers w
    end.
Proof.
  cbn zeta. run.
  destruct (truthy (lookup_config (_config w) "editor.cursorLine")); run;
    destruct (truthy (lookup_config (_config w) "editor.cursorColumn")); run;
    destruct (_pendingTimeout (this w)) eqn:Hpending; run;
    repeat split; exact Hpending.
Qed.

(** C7: on every configuration change the listener returns after reading
    [editor.cursorLineOpacity], [editor.cursorColumnOpacity],
    [editor.fontFamily] and [editor.fontSize] from the new configuration
    and applying them: the opacities to the UI, the font to the editor
    process. *)
Theorem config_change_applies_opacity_and_font (cfg : gmap string JsValue) (w : World) :
  let r := handle (Config_listener cfg) w in
  outcome r = Returned tt /\
  emitted r =
    [ Dispatch (SetCursorLineOpacity (lookup_config cfg "editor.cursorLineOpacity"));
      Dispatch (SetCursorColumnOpacity (lookup_config cfg "editor.cursorColumnOpacity")) ]
    ++ (if truthy (lookup_config cfg "editor.cursorLine")
        then [Dispatch ShowCursorLine] else [])
    ++ (if truthy (lookup_config cfg "editor.cursorColumn")
        then [Dispatch ShowCursorColumn] else [])
    ++ [ Neovim (Nv_setFont (lookup_config cfg "editor.fontFamily")
                            (lookup_config cfg "editor.fontSize"));
         Dispatch (SetCursorPosition (_screen w)) ]
    ++ match _pendingTimeout (this w) with
       | Some id => [ClearTimeout id]
       | None => []
       end.
Proof.
  cbn zeta. cbn [handle].
  destruct (bind_modify (with_config cfg) (fun _ => _onConfigChanged) w)
    as (Ho & _ & He).
  destruct (onConfigChanged_runs (with_config cfg w)) as (Hout & Hem & _).
  rewrite Ho, He. split; [exact Hout | exact Hem].
Qed.

(** ** The render loop (C5) *)

Lemma same_frame_queue_refl w : same_frame_queue w w.
Proof. reflexivity. Qed.

Lemma same_frame_queue_trans a b c :
  same_frame_queue a b -> same_frame_queue b c -> same_frame_queue a c.
Proof. unfold same_frame_queue; congruence. Qed.

Lemma other_events_keep_frame_queue ev :
  ev <> Animation_frame ->
  keeps same_frame_queue any_effect (handle ev).
Proof.
  intros Hne.
  destruct ev as [ | | | | | e | | | | | | | | | | ]; try congruence;
    try destruct e;
    repeat autounfold with editor;
    frame_structure same_frame_queue_refl same_frame_queue_trans;
    frame_leaves same_frame_queue_refl.
Qed.

Lemma onConfigChanged_frames : keeps same_frame_queue any_effect _onConfigChanged.
Proof.
  repeat autounfold with editor;
    frame_structure same_frame_queue_refl same_frame_queue_trans;
    frame_leaves same_frame_queue_refl.
Qed.

Lemma render_runs (w : World) :
  outcome (_render w) = Returned tt /\
  emitted (_render w) = render_output w /\
  animationFrameCallbacks (after (_render w)) = S (animationFrameCallbacks w).
Proof.
  unfold render_output. run.
  destruct (_pendingTimeout (this w)) eqn:Hpending; run; repeat split.
Qed.

Lemma animation_frame_runs (w : World) :
  animationFrameCallbacks w = 1 ->
  outcome (handle Animation_frame w) = Returned tt /\
  emitted (handle Animation_frame w) = render_output w /\
  animationFrameCallbacks (after (handle Animation_frame w)) = 1.
Proof.
  intros Hone. cbn [handle].
  destruct (bind_run get
              (fun w0 => modify (with_animationFrameCallbacks 0) >>
                         repeatM (animationFrameCallbacks w0) _render)
              w w eq_refl) as (Ho & Ha & He).
  rewrite Ho, Ha, He. cbn [get after emitted app]. rewrite Hone.
  destruct (bind_modify (with_animationFrameCallbacks 0)
              (fun _ => repeatM 1 _render) w) as (Ho1 & Ha1 & He1).
  rewrite Ho1, Ha1, He1. cbn [repeatM].
  destruct (render_runs (with_animationFrameCallbacks 0 w)) as (Hout & Hem & Hq).
  destruct (bind_run _render (fun _ => ret tt)
              (with_animationFrameCallbacks 0 w) tt Hout) as (Ho2 & Ha2 & He2).
  rewrite Ho2, Ha2, He2. cbn [ret outcome after emitted].
  rewrite Hem, Hq, app_nil_r. repeat split.
Qed.

Lemma reachable_one_frame_callback (w : World) :
  reachable w -> animationFrameCallbacks w = 1.
Proof.
  induction 1 as [cfg doc ui scr | w ev Hw IH Hen | w ui Hw IH | w doc Hw IH].
  - destruct (render_runs (fresh cfg doc ui scr)) as (Hout & _ & Hq).
    rewrite (constructor_runs _ Hout).
    destruct (onConfigChanged_frames (after (_render (fresh cfg doc ui scr)))) as [Hf _].
    unfold same_frame_queue in Hf. rewrite Hf, Hq. reflexivity.
  - destruct ev as [ | | | | | e | | | | | | | | | | ].
    13: { apply animation_frame_runs; exact IH. }
    all: match goal with
         | |- animationFrameCallbacks (after (handle ?ev ?w0)) = 1 =>
             let H := fresh in
             assert (H : ev <> Animation_frame) by discriminate;
             destruct (other_events_keep_frame_queue ev H w0) as [Hf _];
             unfold same_frame_queue in Hf; rewrite Hf; exact IH
         end.
  - exact IH.
  - exact IH.
Qed.

(** C5: every invocation of the render step returns after updating the
    renderer from the screen model, cleaning up the rendered cells and
    queueing itself for the next animation frame, whatever the state; and
    from construction on exactly one such callback is queued, so that each
    animation frame runs the render step once and leaves it queued again. *)
Theorem render_runs_on_every_frame (w : World) :
  (outcome (_render w) = Returned tt /\
   emitted (_render w) =
     (if isSome (_pendingTimeout (this w))
      then [Dispatch (SetCursorPosition (_screen w))] else [])
     ++ [ Renderer_update (_screen w); DeltaRegion_cleanUpRenderedCells;
          RequestAnimationFrame_render ] /\
   animationFrameCallbacks (after (_render w)) = S (animationFrameCallbacks w)) /\
  (reachable w ->
   animationFrameCallbacks w = 1 /\
   outcome (handle Animation_frame w) = Returned tt /\
   emitted (handle Animation_frame w) = render_output w /\
   animationFrameCallbacks (after (handle Animation_frame w)) = 1 /\
   reachable (after (handle Animation_frame w))).
Proof.
  split.
  - exact (render_runs w).
  - intros Hw. pose proof (reachable_one_frame_callback w Hw) as Hone.
    destruct (animation_frame_runs w Hone) as (Hout & Hem & Hq).
    repeat split; try assumption.
    apply reach_event; [exact Hw | exact I].
Qed.

Lemma render_runs_on_every_frame_witness :
  animationFrameCallbacks constructed = 1 /\
  emitted (handle Animation_frame constructed) =
    [ Renderer_update blankScreen; DeltaRegion_cleanUpRenderedCells;
      RequestAnimationFrame_render ].
Proof.
  destruct (render_runs_on_every_frame constructed) as [_ Hframe].
  destruct (Hframe (reach_new sampleConfig sampleDocument emptyView blankScreen))
    as (Hone & _ & Hem & _).
  split; [exact Hone | exact Hem].
Defined.

(** ** The deferred update (C8) *)

Lemma same_timers_refl w : same_timers w w.
Proof. split; reflexivity. Qed.

Lemma same_timers_trans a b c :
  same_timers a b -> same_timers b c -> same_timers a c.
Proof. unfold same_timers; intros [? ?] [? ?]; split; congruence. Qed.

Lemma other_events_keep_timers ev :
  match ev with
  | NeovimInstance (Ev_action _) | Config_listener _ | Timeout_fired _ => True
  | _ => keeps same_timers any_effect (handle ev)
  end.
Proof.
  destruct ev as [ | | | | | e | | | | | | | | | | ]; try exact I;
    try (destruct e; try exact I);
    repeat autounfold with editor;
    frame_structure same_timers_refl same_timers_trans;
    frame_leaves same_timers_refl.
Qed.

Lemma render_keeps_timers : keeps same_timers any_effect _render.
Proof.
  repeat autounfold with editor;
    frame_structure same_timers_refl same_timers_trans;
    frame_leaves same_timers_refl.
Qed.

Lemma filter_out_self (id : TimerId) :
  List.filter (fun t => negb (Pos.eqb t id)) [id] = [].
Proof. cbn. rewrite Pos.eqb_refl. reflexivity. Qed.

Lemma onUpdate_runs (w : World) :
  outcome (_onUpdate w) = Returned tt /\
  emitted (_onUpdate w) =
    Dispatch (SetCursorPosition (_screen w))
    :: match _pendingTimeout (this w) with
       | Some id => [ClearTimeout id]
       | None => []
       end /\
  _pendingTimeout (this (after (_onUpdate w))) = None /\
  timers (after (_onUpdate w)) =
    match _pendingTimeout (this w) with
    | Some id => List.filter (fun t => negb (Pos.eqb t id)) (timers w)
    | None => timers w
    end.
Proof.
  run. destruct (_pendingTimeout (this w)) eqn:Hpending; run;
    repeat split; exact Hpending.
Qed.

Lemma timeout_fired_runs (id : TimerId) (w : World) :
  let w1 := with_timers (List.filter (fun t => negb (Pos.eqb t id))) w in
  outcome (handle (Timeout_fired id) w) = outcome (_onUpdate w1) /\
  after (handle (Timeout_fired id) w) = after (_onUpdate w1) /\
  emitted (handle (Timeout_fired id) w) = emitted (_onUpdate w1).
Proof. cbn zeta. cbn [handle]. apply bind_modify. Qed.

Lemma onUpdate_clears (w : World) :
  timers_consistent w ->
  timers (after (_onUpdate w)) = [] /\ timers_consistent (after (_onUpdate w)).
Proof.
  intros Hc. destruct (onUpdate_runs w) as (_ & _ & Hp & Ht).
  unfold timers_consistent in *. rewrite Hp, Ht.
  destruct (_pendingTimeout (this w)) as [id |]; rewrite Hc;
    [rewrite filter_out_self | ]; split; reflexivity.
Qed.

Lemma action_runs (a : Action) (w : World) :
  let r := handle (NeovimInstance (Ev_action a)) w in
  outcome r = Returned tt /\
  emitted r =
    [ Renderer_onAction a;
      Dispatch (SetColors (foregroundColor (a (_screen w)))
                          (backgroundColor (a (_screen w)))) ]
    ++ match _pendingTimeout (this w) with
       | None => [SetTimeout_onUpdate (nextTimer w)]
       | Some _ => []
       end /\
  _pendingTimeout (this (after r)) =
    Some (match _pendingTimeout (this w) with
          | Some id => id
          | None => nextTimer w
          end) /\
  timers (after r) =
    match _pendingTimeout (this w) with
    | Some _ => timers w
    | None => timers w ++ [nextTimer w]
    end /\
  nextTimer (after r) =
    match _pendingTimeout (this w) with
    | Some _ => nextTimer w
    | None => Pos.succ (nextTimer w)
    end.
Proof.
  cbn zeta. run.
  destruct (_pendingTimeout (this w)) eqn:Hpending; run;
    repeat split; exact Hpending.
Qed.

Lemma reachable_timers_consistent (w : World) :
  reachable w -> timers_consistent w.
Proof.
  induction 1 as [cfg doc ui scr | w ev Hw IH Hen | w ui Hw IH | w doc Hw IH].
  - destruct (render_runs (fresh cfg doc ui scr)) as (Hout & _).
    rewrite (constructor_runs _ Hout).
    destruct (render_keeps_timers (fresh cfg doc ui scr)) as [[Ht Hp] _].
    destruct (onConfigChanged_runs (after (_render (fresh cfg doc ui scr))))
      as (_ & _ & _ & _ & Hp' & _ & Ht').
    unfold timers_consistent. rewrite Hp', Ht', Hp, Ht. reflexivity.
  - pose proof (other_events_keep_timers ev) as Hkeep.
    destruct ev as [ | | | | | e | cfg | | | | | id | | | | ];
      try (destruct e as [ | | | | a | | | | ]);
      try (destruct (Hkeep w) as [[Ht Hp] _];
           unfold timers_consistent in *; rewrite Ht, Hp; exact IH).
    + destruct (action_runs a w) as (_ & _ & Hp & Ht & _).
      unfold timers_consistent in *. rewrite Hp, Ht.
      destruct (_pendingTimeout (this w)); rewrite IH; reflexivity.
    + cbn [handle].
      destruct (bind_modify (with_config cfg) (fun _ => _onConfigChanged) w)
        as (_ & Ha & _).
      rewrite Ha.
      destruct (onConfigChanged_runs (with_config cfg w))
        as (_ & _ & _ & _ & Hp & _ & Ht).
      unfold timers_consistent in *. rewrite Hp, Ht. cbn.
      destruct (_pendingTimeout (this w)); rewrite IH;
        [apply filter_out_self | reflexivity].
    + destruct (timeout_fired_runs id w) as (_ & Ha & _). rewrite Ha.
      match goal with
      | |- timers_consistent (after (_onUpdate ?w1)) =>
          destruct (onUpdate_runs w1) as (_ & _ & Hp & Ht)
      end.
      unfold timers_consistent in *. rewrite Hp, Ht. cbn.
      destruct (_pendingTimeout (this w)) as [id0 |]; rewrite IH; cbn.
      * destruct (Pos.eqb id0 id); cbn; [ | rewrite Pos.eqb_refl ]; reflexivity.
      * reflexivity.
  - exact IH.
  - exact IH.
Qed.

Lemma run_cons (ev : Event) (rest : list Event) (w : World) :
  run (ev :: rest) w =
  (fst (run rest (after (handle ev w))),
   emitted (handle ev w) ++ snd (run rest (after (handle ev w)))).
Proof. cbn [run]. destruct (run rest (after (handle ev w))); reflexivity. Qed.

(** Actions that arrive while an update is pending schedule nothing. *)
Lemma actions_while_pending (actions : list Action) :
  forall (w : World) (id : TimerId),
    _pendingTimeout (this w) = Some id ->
    let res := run (action_events actions) w in
    _pendingTimeout (this (fst res)) = Some id /\
    timers (fst res) = timers w /\
    List.filter is_setTimeout (snd res) = [] /\
    List.filter is_setCursorPosition (snd res) = [].
Proof.
  induction actions as [| a rest IH]; intros w id Hp; cbn zeta.
  - cbn. repeat split. exact Hp.
  - unfold action_events. cbn [List.map]. rewrite run_cons. cbn [fst snd].
    destruct (action_runs a w) as (_ & Hem & Hp' & Ht & _).
    rewrite Hp in Hem, Hp', Ht.
    destruct (IH (after (handle (NeovimInstance (Ev_action a)) w)) id Hp')
      as (IHp & IHt & IHs & IHc).
    fold (action_events rest).
    rewrite !List.filter_app, IHs, IHc, Hem, IHt, Ht.
    repeat split. exact IHp.
Qed.

(** C8: in every state the instance can reach at most one update timeout
    is queued.  An [action] event schedules the deferred update exactly
    when none is pending and otherwise schedules nothing; [_onUpdate]
    leaves no timeout pending.  Hence any burst of actions delivered
    before the timeout fires queues a single timeout, and the burst
    together with that timeout's firing performs a single cursor-position
    update. *)
Theorem update_timeout_is_coalesced (w : World) :
  reachable w ->
  length (timers w) <= 1 /\
  (forall a,
     let r := handle (NeovimInstance (Ev_action a)) w in
     (_pendingTimeout (this w) = None ->
        List.filter is_setTimeout (emitted r) = [SetTimeout_onUpdate (nextTimer w)] /\
        timers (after r) = [nextTimer w] /\
        _pendingTimeout (this (after r)) = Some (nextTimer w)) /\
     (forall id, _pendingTimeout (this w) = Some id ->
        List.filter is_setTimeout (emitted r) = [] /\
        timers (after r) = [id] /\
        _pendingTimeout (this (after r)) = Some id)) /\
  (_pendingTimeout (this (after (_onUpdate w))) = None /\
   timers (after (_onUpdate w)) = []) /\
  (forall a rest,
     _pendingTimeout (this w) = None ->
     let res := run (action_events (a :: rest)) w in
     let fired := handle (Timeout_fired (nextTimer w)) (fst res) in
     timers (fst res) = [nextTimer w] /\
     length (List.filter is_setTimeout (snd res)) = 1 /\
     length (List.filter is_setCursorPosition (snd res ++ emitted fired)) = 1 /\
     timers (after fired) = [] /\
     _pendingTimeout (this (after fired)) = None).
Proof.
  intros Hw. pose proof (reachable_timers_consistent w Hw) as Hc.
  assert (Hact : forall a,
            let r := handle (NeovimInstance (Ev_action a)) w in
            (_pendingTimeout (this w) = None ->
               List.filter is_setTimeout (emitted r) = [SetTimeout_onUpdate (nextTimer w)] /\
               timers (after r) = [nextTimer w] /\
               _pendingTimeout (this (after r)) = Some (nextTimer w)) /\
            (forall id, _pendingTimeout (this w) = Some id ->
               List.filter is_setTimeout (emitted r) = [] /\
               timers (after r) = [id] /\
               _pendingTimeout (this (after r)) = Some id)).
  { intros a. cbn zeta.
    destruct (action_runs a w) as (_ & Hem & Hp & Ht & _).
    unfold timers_consistent in Hc.
    split.
    - intros Hnone. rewrite Hnone in *. rewrite Hem, Hp, Ht, Hc. repeat split.
    - intros id Hsome. rewrite Hsome in *. rewrite Hem, Hp, Ht, Hc. repeat split. }
  split; [ | split; [ | split ] ].
  - unfold timers_consistent in Hc. rewrite Hc.
    destruct (_pendingTimeout (this w)); cbn; lia.
  - exact Hact.
  - destruct (onUpdate_runs w) as (_ & _ & Hp & _).
    destruct (onUpdate_clears w Hc) as [Ht _]. split; assumption.
  - intros a rest Hnone. cbn zeta.
    unfold action_events. cbn [List.map]. rewrite run_cons. cbn [fst snd].
    fold (action_events rest).
    destruct (Hact a) as [Hfirst _]. destruct (Hfirst Hnone) as (Hs & Ht & Hp).
    destruct (action_runs a w) as (_ & Hem & _).
    rewrite Hnone in Hem.
    set (w1 := after (handle (NeovimInstance (Ev_action a)) w)) in *.
    destruct (actions_while_pending rest w1 (nextTimer w) Hp)
      as (Hp2 & Ht2 & Hs2 & Hc2).
    set (w2 := fst (run (action_events rest) w1)) in *.
    destruct (timeout_fired_runs (nextTimer w) w2) as (_ & Ha3 & He3).
    rewrite Ha3, He3.
    match goal with
    | |- context [_onUpdate ?w3] =>
        destruct (onUpdate_runs w3) as (_ & Hem3 & Hp3 & Ht3)
    end.
    rewrite Hem3, Hp3, Ht3. cbn [this timers with_timers _screen].
    rewrite Hp2, Ht2, Ht, !List.filter_app, Hs, Hs2, Hc2, Hem.
    cbn. rewrite Pos.eqb_refl. cbn. repeat split.
Qed.

Lemma update_timeout_is_coalesced_witness :
  length (timers rendered) <= 1 /\
  List.filter is_setTimeout
    (emitted (handle (NeovimInstance (Ev_action (fun scr => scr))) rendered)) =
    [SetTimeout_onUpdate 1%positive] /\
  List.filter is_setTimeout
    (emitted (handle (NeovimInstance (Ev_action (fun scr => scr))) updatePending)) = [] /\
  length (List.filter is_setTimeout
            (snd (run (action_events [fun s => s; fun s => s; fun s => s]) rendered))) = 1 /\
  length (List.filter is_setCursorPosition
            (snd (run (action_events [fun s => s; fun s => s; fun s => s]) rendered)
             ++ emitted (handle (Timeout_fired (nextTimer rendered))
                           (fst (run (action_events [fun s => s; fun s => s; fun s => s])
                                     rendered))))) = 1.
Proof.
  assert (Hr : reachable rendered).
  { apply reach_event; [apply reach_new | exact I]. }
  assert (Hp : reachable updatePending).
  { apply reach_event; [exact Hr | exact I]. }
  destruct (update_timeout_is_coalesced rendered Hr) as (Hle & Hact & _ & Hburst).
  destruct (update_timeout_is_coalesced updatePending Hp) as (_ & Hact' & _ & _).
  destruct (Hact (fun scr => scr)) as [Hnone _].
  destruct (Hnone eq_refl) as (Hfirst & _).
  destruct (Hact' (fun scr => scr)) as [_ Hsome].
  destruct (Hsome 1%positive eq_refl) as (Hno & _).
  destruct (Hburst (fun s => s) [fun s => s; fun s => s] eq_refl)
    as (_ & Hone & Hupd & _).
  repeat match goal with |- _ /\ _ => split end;
    [exact Hle | exact Hfirst | exact Hno | exact Hone | exact Hupd].
Defined.

(** ** Mode changes (C3) *)

Lemma same_config_cache_refl w : same_config_cache w w.
Proof. repeat split. Qed.

Lemma same_config_cache_trans a b c :
  same_config_cache a b -> same_config_cache b c -> same_config_cache a c.
Proof.
  unfold same_config_cache. intros (? & ? & ?) (? & ? & ?).
  repeat split; congruence.
Qed.

Lemma other_events_keep_config_cache ev :
  match ev with
  | Config_listener _ => True
  | _ => keeps same_config_cache any_effect (handle ev)
  end.
Proof.
  destruct ev as [ | | | | | e | | | | | | | | | | ]; try exact I;
    try destruct e;
    repeat autounfold with editor;
    frame_structure same_config_cache_refl same_config_cache_trans;
    frame_leaves same_config_cache_refl.
Qed.

Lemma onConfigChanged_caches (w : World) :
  config_cached (after (_onConfigChanged w)).
Proof.
  destruct (onConfigChanged_runs w) as (_ & _ & Hl & Hc & _ & Hcfg & _).
  unfold config_cached. rewrite Hl, Hc, Hcfg. split; reflexivity.
Qed.

Lemma reachable_config_cached (w : World) :
  reachable w -> config_cached w.
Proof.
  induction 1 as [cfg doc ui scr | w ev Hw IH Hen | w ui Hw IH | w doc Hw IH].
  - destruct (render_runs (fresh cfg doc ui scr)) as (Hout & _).
    rewrite (constructor_runs _ Hout). apply onConfigChanged_caches.
  - pose proof (other_events_keep_config_cache ev) as Hkeep.
    destruct ev as [ | | | | | e | cfg | | | | | | | | | ];
      try (destruct (Hkeep w) as [(Hcfg & Hl & Hc) _];
           unfold config_cached in *; rewrite Hcfg, Hl, Hc; exact IH).
    cbn [handle].
    destruct (bind_modify (with_config cfg) (fun _ => _onConfigChanged) w)
      as (_ & Ha & _).
    rewrite Ha. apply onConfigChanged_caches.
  - exact IH.
  - exact IH.
Qed.

Lemma modeChanged_insert_runs (w : World) :
  let r := _onModeChanged "insert" w in
  outcome r = Returned tt /\
  emitted r =
    [Dispatch (SetMode "insert"); Dispatch HideQuickInfo]
    ++ (if truthy (_cursorLine (this w)) then [Dispatch ShowCursorLine] else [])
    ++ (if truthy (_cursorColumn (this w)) then [Dispatch ShowCursorColumn] else [])
    ++ [ErrorOverlay_hideDetails] /\
  cursorLineVisible (store (after r)) =
    truthy (_cursorLine (this w)) || cursorLineVisible (store w) /\
  cursorColumnVisible (store (after r)) =
    truthy (_cursorColumn (this w)) || cursorColumnVisible (store w).
Proof.
  cbn zeta. run.
  destruct (truthy (_cursorLine (this w))); run;
    destruct (truthy (_cursorColumn (this w))); run; repeat split.
Qed.

(** C3, as stated, fails in the direction from visibility to flag: with
    [editor.cursorLine] on at construction the cursor line is shown; once
    the configuration switches it off nothing hides it, and a later change
    to insert mode leaves the cursor line visible although the flag is
    false. *)
Lemma insert_mode_leaves_cursor_line_visible :
  let r := handle (NeovimInstance (Ev_mode_change "insert")) cursorLineSwitchedOff in
  reachable cursorLineSwitchedOff /\
  lookup_config (_config (after r)) "editor.cursorLine" = JBool false /\
  cursorLineVisible (store (after r)) = true /\
  ~ (cursorLineVisible (store (after r)) = true <->
     lookup_config (_config (after r)) "editor.cursorLine" = JBool true).
Proof.
  cbn zeta. split; [ | split; [ | split ] ].
  - apply reach_event; [apply reach_new | exact I].
  - vm_compute. reflexivity.
  - vm_compute. reflexivity.
  - intros [Hflag _].
    assert (Hv : cursorLineVisible
                   (store (after (handle (NeovimInstance (Ev_mode_change "insert"))
                                         cursorLineSwitchedOff))) = true)
      by (vm_compute; reflexivity).
    specialize (Hflag Hv). vm_compute in Hflag. discriminate Hflag.
Qed.

(** C3 (amended): on every mode-change event with new mode [insert] the
    cursor line is shown when [editor.cursorLine] is set, and is otherwise
    left as it was: the listener never hides it.  Likewise the cursor
    column and [editor.cursorColumn]. *)
Theorem insert_mode_shows_configured_cursor (w : World) :
  reachable w ->
  let r := handle (NeovimInstance (Ev_mode_change "insert")) w in
  let lineFlag := truthy (lookup_config (_config w) "editor.cursorLine") in
  let columnFlag := truthy (lookup_config (_config w) "editor.cursorColumn") in
  outcome r = Returned tt /\
  emitted r =
    [Dispatch (SetMode "insert"); Dispatch HideQuickInfo]
    ++ (if lineFlag then [Dispatch ShowCursorLine] else [])
    ++ (if columnFlag then [Dispatch ShowCursorColumn] else [])
    ++ [ErrorOverlay_hideDetails] /\
  cursorLineVisible (store (after r)) = lineFlag || cursorLineVisible (store w) /\
  cursorColumnVisible (store (after r)) = columnFlag || cursorColumnVisible (store w).
Proof.
  intros Hw. destruct (reachable_config_cached w Hw) as [Hl Hc].
  cbn zeta. cbn [handle on_neovim].
  rewrite <- Hl, <- Hc. exact (modeChanged_insert_runs w).
Qed.

Lemma insert_mode_shows_configured_cursor_witness :
  emitted (handle (NeovimInstance (Ev_mode_change "insert")) rendered) =
    [ Dispatch (SetMode "insert"); Dispatch HideQuickInfo;
      Dispatch ShowCursorLine; ErrorOverlay_hideDetails ] /\
  cursorLineVisible
    (store (after (handle (NeovimInstance (Ev_mode_change "insert")) rendered))) = true.
Proof.
  assert (Hr : reachable rendered).
  { apply reach_event; [apply reach_new | exact I]. }
  destruct (insert_mode_shows_configured_cursor rendered Hr) as (_ & Hem & Hl & _).
  split; [exact Hem | exact Hl].
Defined.

(** * Further properties of the listeners *)

(** ** Key presses *)

(** Walk the key dispatch along the tests the code makes, outermost
    first, remembering each answer. *)
Ltac key_paths :=
  repeat (run;
          repeat match goal with
                 | H : ?t = true |- context [?t] => rewrite H
                 | H : ?t = false |- context [?t] => rewrite H
                 end;
          match goal with
          | |- context [if (?a && ?b) then _ else _] =>
              destruct a eqn:?; [destruct b eqn:? | ]; cbn [andb]
          | |- context [if ?b then _ else _] => destruct b eqn:?
          end).

(** X1: every key press is answered with at most one call, and never
    throws; it reaches the editor process as input exactly when
    [forwarded_as_input] says so, and then unchanged; the instance's own
    fields and the screen model are not touched. *)
Theorem keydown_forwarded_exactly (key : string) (w : World) :
  let r := handle (Keyboard_keydown key) w in
  outcome r = Returned tt /\
  length (emitted r) <= 1 /\
  (forall k, In (Neovim (Nv_input k)) (emitted r) <->
             k = key /\ forwarded_as_input key w = true) /\
  this (after r) = this w /\
  _screen (after r) = _screen w.
Proof.
  cbn zeta. unfold forwarded_as_input.
  repeat autounfold with editor.
  key_paths.
  all: run;
    repeat match goal with
           | H : ?t = true |- context [?t] => rewrite H
           | H : ?t = false |- context [?t] => rewrite H
           end; run.
  all: repeat match goal with |- _ /\ _ => split end; try reflexivity; try lia.
  all: intros k; split;
    [ intros [H | []];
      first [discriminate H | injection H as <-; split; reflexivity]
    | intros [Hk Ht];
      first [discriminate Ht | subst k; left; reflexivity] ].
Qed.

(** Whatever a key press sends to the editor process is the key. *)
Lemma keydown_input_is_the_key (key k : string) (w : World) :
  In (Neovim (Nv_input k)) (emitted (handle (Keyboard_keydown key) w)) -> k = key.
Proof.
  repeat autounfold with editor.
  key_paths.
  all: run;
    repeat match goal with
           | H : ?t = true |- context [?t] => rewrite H
           | H : ?t = false |- context [?t] => rewrite H
           end; run.
  all: first
    [ intros [H | []]; first [discriminate H | injection H as <-; reflexivity]
    | intros [] ].
Qed.

(** Decide the comparisons between literal keys. *)
Ltac eval_eqb :=
  repeat match goal with
         | |- context [String.eqb ?a ?b] =>
             let v := eval vm_compute in (String.eqb a b) in
             match v with
             | true => change (String.eqb a b) with true
             | false => change (String.eqb a b) with false
             end
         end.

(** Run a listener on a literal key, using what is known of the state. *)
Ltac run_key :=
  repeat autounfold with editor;
  repeat (run; eval_eqb;
          repeat match goal with
                 | H : ?t = true |- context [?t] => rewrite H
                 | H : ?t = false |- context [?t] => rewrite H
                 | H : ?t = String _ _ |- context [?t] => rewrite H
                 end).

(** X2: [<C-p>] and [<C-P>] are bindings of the front-end only in normal
    mode, where they open quick-open and the task list; in any other mode,
    with no popup menu and no completions showing, the key goes to the
    editor process. *)
Theorem ctrl_p_depends_on_mode (w : World) :
  popupMenuVisible (store w) = false ->
  completionsVisible (store w) = false ->
  (mode (_screen w) = "normal" ->
     emitted (handle (Keyboard_keydown "<C-p>") w) = [QuickOpen_show] /\
     emitted (handle (Keyboard_keydown "<C-P>") w) = [Tasks_show]) /\
  (mode (_screen w) <> "normal" ->
     emitted (handle (Keyboard_keydown "<C-p>") w) = [Neovim (Nv_input "<C-p>")] /\
     emitted (handle (Keyboard_keydown "<C-P>") w) = [Neovim (Nv_input "<C-P>")]).
Proof.
  intros Hpopup Hcompl. split; intros Hmode.
  - run_key. split; reflexivity.
  - apply String.eqb_neq in Hmode. run_key. split; reflexivity.
Qed.

(** X3: while completions are visible (and no popup menu is open),
    [<enter>] completes and [<C-n>], [<C-p>] move the selection, in every
    mode; any other key is answered exactly as if no completions were
    showing. *)
Theorem completion_keys (key : string) (w : World) :
  (popupMenuVisible (store w) = false ->
   completionsVisible (store w) = true ->
   (key = "<enter>" ->
      emitted (handle (Keyboard_keydown key) w) = [AutoCompletion_complete]) /\
   (key = "<C-n>" ->
      emitted (handle (Keyboard_keydown key) w) = [Dispatch NextCompletion]) /\
   (key = "<C-p>" ->
      emitted (handle (Keyboard_keydown key) w) = [Dispatch PreviousCompletion])) /\
  (~ In key ["<enter>"; "<C-n>"; "<C-p>"] ->
     emitted (handle (Keyboard_keydown key) w) =
     emitted (handle (Keyboard_keydown key) (with_store (reduce HideCompletions) w))).
Proof.
  split.
  - intros Hpopup Hcompl.
    split; [ | split ]; intros ->; run_key; reflexivity.
  - intros Hnot.
    assert (He : String.eqb key "<enter>" = false).
    { apply String.eqb_neq. intros ->. apply Hnot. cbn. tauto. }
    assert (Hn : String.eqb key "<C-n>" = false).
    { apply String.eqb_neq. intros ->. apply Hnot. cbn. tauto. }
    assert (Hp : String.eqb key "<C-p>" = false).
    { apply String.eqb_neq. intros ->. apply Hnot. cbn. tauto. }
    repeat autounfold with editor.
    key_paths.
    all: run;
      repeat match goal with
             | H : ?t = true |- context [?t] => rewrite H
             | H : ?t = false |- context [?t] => rewrite H
             end; run; reflexivity.
Qed.

(** ** Errors reported by plugins *)

Lemma getProp_lineNumber (e : JsValue) (w : World) :
  getProp e "lineNumber" w =
  if nullish e
  then {| outcome := Thrown (TypeError "Cannot read property lineNumber");
          after := w; emitted := [] |}
  else {| outcome := Returned (lineNumber_of e); after := w; emitted := [] |}.
Proof. destruct e; reflexivity. Qed.

(** Building the markers reads [lineNumber] off each item in turn; it
    touches nothing and emits nothing, and stops at the first nullish
    item. *)
Lemma markers_run (color : JsValue) (errors : list JsValue) (w : World) :
  mapM (fun e => let* lineNumber := getProp e "lineNumber" in
                 ret {| marker_line := lineNumber; marker_height := 1;
                        marker_color := color |}) errors w =
  if existsb nullish errors
  then {| outcome := Thrown (TypeError "Cannot read property lineNumber");
          after := w; emitted := [] |}
  else {| outcome := Returned (List.map (marker_for color) errors);
          after := w; emitted := [] |}.
Proof.
  induction errors as [| e rest IH]; [reflexivity | ].
  cbn [mapM existsb List.map]. unfold bind at 1. unfold bind at 1.
  rewrite getProp_lineNumber.
  destruct (nullish e); [reflexivity | ].
  cbn [orb ret]. unfold bind at 1. rewrite IH.
  destruct (existsb nullish rest); reflexivity.
Qed.

Lemma markers_set (color : JsValue) (errors : list JsValue)
    (file : Path) (key : string) (w : World) :
  (let* errorMarkers :=
     mapM (fun e => let* lineNumber := getProp e "lineNumber" in
                    ret {| marker_line := lineNumber; marker_height := 1;
                           marker_color := color |}) errors in
   emit (ScrollBarOverlay_setMarkers file key errorMarkers)) w =
  if existsb nullish errors
  then {| outcome := Thrown (TypeError "Cannot read property lineNumber");
          after := w; emitted := [] |}
  else {| outcome := Returned tt; after := w;
          emitted := [ScrollBarOverlay_setMarkers file key
                        (List.map (marker_for color) errors)] |}.
Proof.
  unfold bind at 1. rewrite markers_run.
  destruct (existsb nullish errors); reflexivity.
Qed.

Lemma set_errors_runs (key fileName : string) (errors : list JsValue)
    (color : JsValue) (w : World) :
  let r := handle (PluginManager_set_errors key fileName errors color) w in
  let used := js_or color (JStr "red") in
  after r = w /\
  if existsb nullish errors
  then outcome r = Thrown (TypeError "Cannot read property lineNumber") /\
       emitted r = [ Errors_setErrors fileName errors;
                     ErrorOverlay_setErrors key fileName errors used ]
  else outcome r = Returned tt /\
       emitted r = [ Errors_setErrors fileName errors;
                     ErrorOverlay_setErrors key fileName errors used;
                     ScrollBarOverlay_setMarkers (path_resolve fileName) key
                       (List.map (marker_for used) errors) ].
Proof.
  cbn zeta. cbn [handle]. unfold on_set_errors.
  run. rewrite markers_set.
  destruct (existsb nullish errors); cbn; repeat split.
Qed.

(** X4: when no reported error is nullish, the [set-errors] listener
    returns after passing the errors to the error service and to the error
    overlay and giving the scrollbar one marker per error, in order, of
    height 1 at the error's [lineNumber]; overlay and markers use the given
    colour, or red when none (or an empty one) is given.  With no errors
    the scrollbar's markers for the file are cleared. *)
Theorem set_errors_marks_each_error (key fileName : string)
    (errors : list JsValue) (color : JsValue) (w : World) :
  existsb nullish errors = false ->
  let r := handle (PluginManager_set_errors key fileName errors color) w in
  let used := if truthy color then color else JStr "red" in
  outcome r = Returned tt /\
  after r = w /\
  emitted r = [ Errors_setErrors fileName errors;
                ErrorOverlay_setErrors key fileName errors used;
                ScrollBarOverlay_setMarkers (path_resolve fileName) key
                  (List.map (fun e => {| marker_line := lineNumber_of e;
                                         marker_height := 1;
                                         marker_color := used |}) errors) ] /\
  (errors = [] ->
     In (ScrollBarOverlay_setMarkers (path_resolve fileName) key []) (emitted r)).
Proof.
  intros Hok. cbn zeta.
  destruct (set_errors_runs key fileName errors color w) as [Ha Hrun].
  rewrite Hok in Hrun. destruct Hrun as [Ho He].
  repeat split; try assumption.
  intros ->. rewrite He. cbn. tauto.
Qed.

(** X5: when some reported error is [null] or [undefined], the listener
    throws a [TypeError] while building the markers: the error service and
    the error overlay have been updated by then, the scrollbar has not. *)
Theorem set_errors_nullish_item_throws (key fileName : string)
    (errors : list JsValue) (color : JsValue) (w : World) :
  existsb nullish errors = true ->
  let r := handle (PluginManager_set_errors key fileName errors color) w in
  outcome r = Thrown (TypeError "Cannot read property lineNumber") /\
  emitted r = [ Errors_setErrors fileName errors;
                ErrorOverlay_setErrors key fileName errors
                  (js_or color (JStr "red")) ] /\
  (forall file k markers,
     ~ In (ScrollBarOverlay_setMarkers file k markers) (emitted r)).
Proof.
  intros Hbad. cbn zeta.
  destruct (set_errors_runs key fileName errors color w) as [Ha Hrun].
  rewrite Hbad in Hrun. destruct Hrun as [Ho He].
  repeat split; try assumption.
  intros file k markers. rewrite He. intros [H | [H | []]]; discriminate H.
Qed.


(** ** Which listeners can throw *)











(** ** What the listeners leave alone *)







Lemma error_sets_startup_flag (err : string) (w : World) :
  _errorStartingNeovim (this (after (handle (NeovimInstance (Ev_error err)) w))) = true.
Proof. cbn. destruct (_element (this w)); reflexivity. Qed.

(** X8: the startup-failure flag is never cleared: once an [error] event
    has been received it stays set, whatever events follow. *)
Theorem startup_failure_is_never_cleared (evs : list Event) (w : World) :
  _errorStartingNeovim (this w) = true ->
  _errorStartingNeovim (this (fst (run evs w))) = true.
Proof.
  revert w. induction evs as [| ev rest IH]; intros w Hset; [exact Hset | ].
  rewrite run_cons. cbn [fst]. apply IH.
  destruct ev as [ | | | | | e | | | | | | | | | | ];
    try (destruct e as [ | err | | | | | | | ]);
    try (match goal with
         | |- _errorStartingNeovim (this (after (handle ?ev ?w0))) = true =>
             let H := fresh in
             assert (H : forall err', ev <> NeovimInstance (Ev_error err'))
               by (intros err'; discriminate);
             destruct (other_events_keep_startup_flag ev H w0) as [Hf _];
             unfold same_startup_flag in Hf; rewrite Hf; exact Hset
         end).
  apply error_sets_startup_flag.
Qed.

Lemma same_screen_refl w : same_screen w w.
Proof. reflexivity. Qed.

Lemma same_screen_trans a b c :
  same_screen a b -> same_screen b c -> same_screen a c.
Proof. unfold same_screen; congruence. Qed.

(** X9: the screen model is changed by screen actions only: every other
    event leaves it exactly as it was, and an action leaves it as the
    action makes it. *)
Theorem screen_changes_only_by_actions (ev : Event) (w : World) :
  match ev with
  | NeovimInstance (Ev_action a) => _screen (after (handle ev w)) = a (_screen w)
  | _ => _screen (after (handle ev w)) = _screen w
  end.
Proof.
  assert (Hkeep : match ev with
                  | NeovimInstance (Ev_action _) => True
                  | _ => keeps same_screen any_effect (handle ev)
                  end).
  { destruct ev as [ | | | | | e | | | | | | | | | | ]; try exact I;
      try (destruct e; try exact I);
      repeat autounfold with editor;
      frame_structure same_screen_refl same_screen_trans;
      frame_leaves same_screen_refl. }
  destruct ev as [ | | | | | e | | | | | | | | | | ];
    try (destruct e as [ | | | | a | | | | ]);
    try (destruct (Hkeep w) as [Hs _]; exact Hs).
  cbn. destruct (_pendingTimeout (this w)); reflexivity.
Qed.

Lemma any_world_refl w : any_world w w.
Proof. exact I. Qed.

Lemma any_world_trans a b c : any_world a b -> any_world b c -> any_world a c.
Proof. intros _ _. exact I. Qed.

(** The leaves when only the emissions matter. *)
Ltac emission_leaves :=
  first
    [ apply keeps_modify; intros; exact I
    | apply (keeps_emit _ _ any_world_refl); intros ?; discriminate ].

(** X10: a log entry is made by the three log events of the editor
    process and by nothing else. *)
Theorem log_entries_only_from_log_events (ev : Event) (w : World) (entry : LogEntry) :
  In (Dispatch (MakeLog entry)) (emitted (handle ev w)) ->
  is_log_event ev = true.
Proof.
  intros Hin.
  destruct (is_log_event ev) eqn:Hlog; [reflexivity | exfalso].
  assert (Hkeep : keeps any_world not_makeLog (handle ev)).
  { destruct ev as [ | | | | | e | | | | | | | | | | ];
      try (destruct e; try discriminate Hlog);
      repeat autounfold with editor;
      frame_structure any_world_refl any_world_trans;
      emission_leaves. }
  destruct (Hkeep w) as [_ Hall].
  exact (proj1 (List.Forall_forall _ _) Hall _ Hin entry eq_refl).
Qed.

(** X11: input reaches the editor process from the keyboard and the mouse
    listeners only, and is then the key or the mouse input itself. *)
Theorem input_only_from_keyboard_and_mouse (ev : Event) (w : World) (k : string) :
  In (Neovim (Nv_input k)) (emitted (handle ev w)) ->
  ev = Keyboard_keydown k \/ ev = Mouse_mouse k.
Proof.
  intros Hin.
  assert (Hkeep : match ev with
                  | Keyboard_keydown _ | Mouse_mouse _ => True
                  | _ => keeps any_world not_input (handle ev)
                  end).
  { destruct ev as [ | | | | | e | | | | | | | | | | ]; try exact I;
      try destruct e;
      repeat autounfold with editor;
      frame_structure any_world_refl any_world_trans;
      emission_leaves. }
  destruct ev as [ | | | | | e | | key | | | mouseInput | | | | | ];
    try (destruct (Hkeep w) as [_ Hall]; exfalso;
         exact (proj1 (List.Forall_forall _ _) Hall _ Hin k eq_refl)).
  - left. apply keydown_input_is_the_key in Hin as ->. reflexivity.
  - right. cbn in Hin. destruct Hin as [H | [H | []]]; [discriminate H | ].
    injection H as ->. reflexivity.
Qed.

(** ** Mode changes *)

(** Walk a listener along its tests, including the guarded calls. *)
Ltac mode_paths :=
  repeat autounfold with editor; unfold when;
  repeat (run;
          repeat match goal with
                 | H : ?t = true |- context [?t] => rewrite H
                 | H : ?t = false |- context [?t] => rewrite H
                 end;
          match goal with
          | |- context [if ?b then _ else _] => destruct b eqn:?
          end);
  run;
  repeat match goal with
         | H : ?t = true |- context [?t] => rewrite H
         | H : ?t = false |- context [?t] => rewrite H
         end;
  run.




Lemma modeChanged_normal_runs (w : World) :
  let r := handle (NeovimInstance (Ev_mode_change "normal")) w in
  outcome r = Returned tt /\
  emitted r =
    [Dispatch (SetMode "normal")]
    ++ (if truthy (_cursorLine (this w)) then [Dispatch ShowCursorLine] else [])
    ++ (if truthy (_cursorColumn (this w)) then [Dispatch ShowCursorColumn] else [])
    ++ [Dispatch HideCompletions; Dispatch HideSignatureHelp; ErrorOverlay_showDetails] /\
  cursorLineVisible (store (after r)) =
    truthy (_cursorLine (this w)) || cursorLineVisible (store w) /\
  cursorColumnVisible (store (after r)) =
    truthy (_cursorColumn (this w)) || cursorColumnVisible (store w) /\
  completionsVisible (store (after r)) = false /\
  signatureHelpVisible (store (after r)) = false /\
  popupMenuVisible (store (after r)) = popupMenuVisible (store w) /\
  quickInfoVisible (store (after r)) = quickInfoVisible (store w).
Proof.
  cbn zeta. repeat autounfold with editor; unfold when. run.
  destruct (truthy (_cursorLine (this w)));
    destruct (truthy (_cursorColumn (this w))); run; repeat split.
Qed.

(** X13: entering normal mode hides the completions and the signature
    help, shows the cursor line and column that the configuration asks
    for, hides neither of them, and leaves the popup menu and the quick
    info as they were. *)
Theorem normal_mode_hides_completions (w : World) :
  reachable w ->
  let r := handle (NeovimInstance (Ev_mode_change "normal")) w in
  let lineFlag := truthy (lookup_config (_config w) "editor.cursorLine") in
  let columnFlag := truthy (lookup_config (_config w) "editor.cursorColumn") in
  outcome r = Returned tt /\
  emitted r =
    [Dispatch (SetMode "normal")]
    ++ (if lineFlag then [Dispatch ShowCursorLine] else [])
    ++ (if columnFlag then [Dispatch ShowCursorColumn] else [])
    ++ [Dispatch HideCompletions; Dispatch HideSignatureHelp; ErrorOverlay_showDetails] /\
  cursorLineVisible (store (after r)) = lineFlag || cursorLineVisible (store w) /\
  cursorColumnVisible (store (after r)) = columnFlag || cursorColumnVisible (store w) /\
  completionsVisible (store (after r)) = false /\
  signatureHelpVisible (store (after r)) = false /\
  popupMenuVisible (store (after r)) = popupMenuVisible (store w) /\
  quickInfoVisible (store (after r)) = quickInfoVisible (store w).
Proof.
  intros Hw. destruct (reachable_config_cached w Hw) as [Hl Hc].
  cbn zeta. rewrite <- Hl, <- Hc. exact (modeChanged_normal_runs w).
Qed.


(** ** Vim events *)

(** X15: every vim event is first passed to the error overlay, the
    live-evaluation overlay, the scrollbar overlay and the task service,
    in this order.  Unless it is [BufEnter] nothing is dispatched to the UI
    and the state is left as it was; the working directory is asked for
    exactly on [DirChanged]. *)
Theorem vim_event_is_passed_on (eventName : string) (evt : JsValue) (w : World) :
  eventName <> "BufEnter" ->
  let r := handle (NeovimInstance (Ev_event eventName evt)) w in
  outcome r = Returned tt /\
  after r = w /\
  emitted r =
    [ ErrorOverlay_onVimEvent eventName evt;
      LiveEvaluationOverlay_onVimEvent eventName evt;
      ScrollBarOverlay_onVimEvent eventName evt;
      Tasks_onEvent evt ]
    ++ (if String.eqb eventName "DirChanged"
        then [Neovim Nv_getCurrentWorkingDirectory] else []).
Proof.
  intros Hne. apply String.eqb_neq in Hne. cbn zeta.
  repeat autounfold with editor; unfold when. run. rewrite Hne.
  destruct (String.eqb eventName "DirChanged"); run; repeat split.
Qed.

(** ** Configuration changes and the deferred update *)

Lemma config_listener_runs (cfg : gmap string JsValue) (w : World) :
  outcome (handle (Config_listener cfg) w) = outcome (_onConfigChanged (with_config cfg w)) /\
  after (handle (Config_listener cfg) w) = after (_onConfigChanged (with_config cfg w)) /\
  emitted (handle (Config_listener cfg) w) = emitted (_onConfigChanged (with_config cfg w)).
Proof. cbn [handle]. apply bind_modify. Qed.

(** X16: a configuration change performs the cursor-position update at
    once and cancels the deferred one: afterwards no update timeout is
    pending or queued, so none can fire, and the next screen action
    schedules a new one. *)
Theorem config_change_cancels_deferred_update (cfg : gmap string JsValue) (w : World) :
  reachable w ->
  let r := handle (Config_listener cfg) w in
  In (Dispatch (SetCursorPosition (_screen w))) (emitted r) /\
  (forall id, _pendingTimeout (this w) = Some id -> In (ClearTimeout id) (emitted r)) /\
  _pendingTimeout (this (after r)) = None /\
  timers (after r) = [] /\
  (forall id, ~ enabled (after r) (Timeout_fired id)) /\
  (forall a, In (SetTimeout_onUpdate (nextTimer (after r)))
                (emitted (handle (NeovimInstance (Ev_action a)) (after r)))).
Proof.
  intros Hw. cbn zeta.
  pose proof (reachable_timers_consistent w Hw) as Hc.
  destruct (config_listener_runs cfg w) as (_ & Ha & He).
  destruct (onConfigChanged_runs (with_config cfg w))
    as (_ & Hem & _ & _ & Hp & _ & Ht).
  cbn [with_config this _pendingTimeout timers _config _screen] in Hem, Ht.
  assert (Htimers : timers (after (handle (Config_listener cfg) w)) = []).
  { rewrite Ha, Ht. unfold timers_consistent in Hc.
    destruct (_pendingTimeout (this w)); rewrite Hc;
      [apply filter_out_self | reflexivity]. }
  assert (Hpending : _pendingTimeout (this (after (handle (Config_listener cfg) w))) = None).
  { rewrite Ha. exact Hp. }
  rewrite He, Hem.
  split; [ | split; [ | split; [ | split; [ | split ] ] ] ].
  - rewrite !in_app_iff. right. right. right. left. cbn. tauto.
  - intros id Hid. rewrite Hid. rewrite !in_app_iff. do 4 right. cbn. tauto.
  - exact Hpending.
  - exact Htimers.
  - intros id. cbn [enabled]. rewrite Htimers. intros [].
  - intros a.
    destruct (action_runs a (after (handle (Config_listener cfg) w)))
      as (_ & Hact & _).
    rewrite Hact, Hpending. rewrite in_app_iff. right. cbn. tauto.
Qed.

Lemma onConfigChanged_state (w : World) :
  let cfg := _config w in
  let r := _onConfigChanged w in
  this (after r) =
    {| _pendingTimeout := None; _element := _element (this w);
       _cursorLine := lookup_config cfg "editor.cursorLine";
       _cursorColumn := lookup_config cfg "editor.cursorColumn";
       _errorStartingNeovim := _errorStartingNeovim (this w) |} /\
  store (after r) =
    (if truthy (lookup_config cfg "editor.cursorColumn")
     then reduce ShowCursorColumn else fun v => v)
      ((if truthy (lookup_config cfg "editor.cursorLine")
        then reduce ShowCursorLine else fun v => v) (store w)) /\
  _screen (after r) = _screen w.
Proof.
  cbn zeta. run.
  destruct (truthy (lookup_config (_config w) "editor.cursorLine")); run;
    destruct (truthy (lookup_config (_config w) "editor.cursorColumn")); run;
    destruct (_pendingTimeout (this w)) eqn:Hpending; run;
    repeat split;
    unfold set_cursorColumn, set_cursorLine; cbn; rewrite Hpending; reflexivity.
Qed.

(** X17: notifying the same configuration twice changes nothing the
    second time: the instance's fields, the view state, the timer queue and
    the screen model are as after the first notification. *)
Theorem config_listener_is_idempotent (cfg : gmap string JsValue) (w : World) :
  let w1 := after (handle (Config_listener cfg) w) in
  let w2 := after (handle (Config_listener cfg) w1) in
  this w2 = this w1 /\
  store w2 = store w1 /\
  timers w2 = timers w1 /\
  _screen w2 = _screen w1.
Proof.
  cbn zeta.
  destruct (config_listener_runs cfg w) as (_ & Ha1 & _).
  destruct (config_listener_runs cfg (after (handle (Config_listener cfg) w)))
    as (_ & Ha2 & _).
  rewrite Ha2. clear Ha2.
  set (w1 := after (handle (Config_listener cfg) w)) in *.
  destruct (onConfigChanged_state (with_config cfg w)) as (Hthis1 & Hstore1 & _).
  destruct (onConfigChanged_runs (with_config cfg w)) as (_ & _ & _ & _ & Hp1 & _).
  rewrite <- Ha1 in Hthis1, Hstore1, Hp1.
  cbn [with_config this store _config _element _errorStartingNeovim] in Hthis1, Hstore1.
  destruct (onConfigChanged_state (with_config cfg w1)) as (Hthis2 & Hstore2 & Hscr2).
  destruct (onConfigChanged_runs (with_config cfg w1))
    as (_ & _ & _ & _ & _ & _ & Ht2).
  cbn [with_config this store _config _element _errorStartingNeovim _screen
       timers _pendingTimeout] in Hthis2, Hstore2, Hscr2, Ht2.
  rewrite Hp1 in Ht2.
  split; [ | split; [ | split ] ].
  - rewrite Hthis2, Hthis1. reflexivity.
  - rewrite Hstore2, Hstore1.
    destruct (truthy (lookup_config cfg "editor.cursorLine"));
      destruct (truthy (lookup_config cfg "editor.cursorColumn")); reflexivity.
  - exact Ht2.
  - exact Hscr2.
Qed.

(** X18: in every state the instance can reach, the only update timeout
    that can fire is the pending one; when it fires the cursor position is
    updated once and nothing stays pending. *)
Theorem only_the_pending_timeout_fires (w : World) (id : TimerId) :
  reachable w ->
  enabled w (Timeout_fired id) ->
  let r := handle (Timeout_fired id) w in
  _pendingTimeout (this w) = Some id /\
  outcome r = Returned tt /\
  emitted r = [Dispatch (SetCursorPosition (_screen w)); ClearTimeout id] /\
  _pendingTimeout (this (after r)) = None /\
  timers (after r) = [].
Proof.
  intros Hw Hen. cbn zeta.
  pose proof (reachable_timers_consistent w Hw) as Hc.
  unfold timers_consistent in Hc. cbn [enabled] in Hen. rewrite Hc in Hen.
  destruct (_pendingTimeout (this w)) as [id0 |] eqn:Hp; [ | destruct Hen].
  destruct Hen as [-> | []].
  destruct (timeout_fired_runs id w) as (Ho & Ha & He).
  rewrite Ho, Ha, He.
  match goal with
  | |- context [_onUpdate ?w1] =>
      destruct (onUpdate_runs w1) as (Hout & Hem & Hp' & Ht)
  end.
  cbn [with_timers this _pendingTimeout timers _screen] in Hem, Ht.
  rewrite Hp in Hem, Ht. rewrite Hc in Ht. cbn in Ht.
  rewrite Pos.eqb_refl in Ht. cbn in Ht.
  repeat split; assumption.
Qed.

(** ** Screen actions *)


(** ** Rendering into a host element *)

(** X20: [render(element)] makes [element] the host element, starts the
    renderer on it, and at once forwards its size to the editor process,
    whether or not there was a host element before; from then on a window
    resize forwards the size of that element. *)
Theorem render_sets_host_and_resizes (element : ElemRef) (w : World) :
  let r := handle (Call_render element) w in
  let size := Nv_resize (offsetWidth (document w element))
                        (offsetHeight (document w element)) in
  outcome r = Returned tt /\
  _element (this (after r)) = Some element /\
  emitted r = [ Renderer_start element; DeltaRegion_dirtyAllCells;
                Neovim size; Renderer_onResize; Mouse_new element ] /\
  emitted (handle Window_resize (after r)) =
    [ DeltaRegion_dirtyAllCells; Neovim size; Renderer_onResize ].
Proof. cbn zeta. run. repeat split. Qed.

(** ** Error log entries *)

Lemma append_empty_r (s : string) : s +:+ "" = s.
Proof.
  induction s as [| c rest IH]; [reflexivity | ].
  change (String c (rest +:+ "") = String c rest). f_equal. exact IH.
Qed.

Lemma append_assoc (a b c : string) : (a +:+ b) +:+ c = a +:+ (b +:+ c).
Proof.
  induction a as [| x rest IH]; [reflexivity | ].
  change (String x ((rest +:+ b) +:+ c) = String x (rest +:+ (b +:+ c))).
  f_equal. exact IH.
Qed.

Lemma split_at_nonempty (sep : Ascii.ascii) (s cur : string) :
  split_at sep s cur <> [].
Proof.
  revert cur. induction s as [| c rest IH]; intros cur; cbn [split_at].
  - discriminate.
  - destruct (Ascii.eqb c sep); [discriminate | apply IH].
Qed.

Lemma join_cons (l : string) (rest : list string) (sep : Ascii.ascii) :
  rest <> [] -> join (l :: rest) sep = l +:+ String sep (join rest sep).
Proof. destruct rest; [congruence | reflexivity]. Qed.

Lemma join_split_at (sep : Ascii.ascii) (s cur : string) :
  join (split_at sep s cur) sep = cur +:+ s.
Proof.
  revert cur. induction s as [| c rest IH]; intros cur; cbn [split_at].
  - cbn. symmetry. apply append_empty_r.
  - destruct (Ascii.eqb_spec c sep) as [-> | Hne].
    + rewrite join_cons by apply split_at_nonempty.
      rewrite IH. reflexivity.
    + rewrite IH, append_assoc. reflexivity.
Qed.

(** X21: the log entry made for a [logError] event loses nothing of the
    error's stack: its details are a non-empty list of lines which, joined
    by newlines, give back the stack. *)
Theorem log_error_details_keep_the_stack (err : JsError) (w : World) :
  exists lines,
    emitted (handle (NeovimInstance (Ev_logError err)) w) =
      [Dispatch (MakeLog {| log_type := "error"; log_message := message err;
                            log_details := Some lines |})] /\
    lines <> [] /\
    join lines newline = stack err.
Proof.
  exists (split (stack err) newline). split; [reflexivity | split].
  - apply split_at_nonempty.
  - unfold split. apply join_split_at.
Qed.

(** ** The properties at sample states *)

Lemma ctrl_p_depends_on_mode_witness :
  (emitted (handle (Keyboard_keydown "<C-p>") rendered) = [QuickOpen_show] /\
   emitted (handle (Keyboard_keydown "<C-P>") rendered) = [Tasks_show]) /\
  (emitted (handle (Keyboard_keydown "<C-p>") typing) = [Neovim (Nv_input "<C-p>")] /\
   emitted (handle (Keyboard_keydown "<C-P>") typing) = [Neovim (Nv_input "<C-P>")]).
Proof.
  split.
  - apply (ctrl_p_depends_on_mode rendered); reflexivity.
  - apply (ctrl_p_depends_on_mode typing); try reflexivity.
    vm_compute. discriminate.
Defined.

Lemma completion_keys_witness :
  emitted (handle (Keyboard_keydown "<C-n>") completionsShowing) =
    [Dispatch NextCompletion] /\
  emitted (handle (Keyboard_keydown "x") completionsShowing) =
    emitted (handle (Keyboard_keydown "x")
               (with_store (reduce HideCompletions) completionsShowing)).
Proof.
  destruct (completion_keys "<C-n>" completionsShowing) as [Hkeys _].
  destruct (completion_keys "x" completionsShowing) as [_ Hother].
  split.
  - apply Hkeys; reflexivity.
  - apply Hother. cbn. intros H.
    repeat (destruct H as [H | H]; [discriminate H | ]). exact H.
Defined.

Lemma set_errors_marks_each_error_witness :
  emitted (handle (PluginManager_set_errors "lint" "a.ts" [sampleError] JUndefined)
             rendered) =
  [ Errors_setErrors "a.ts" [sampleError];
    ErrorOverlay_setErrors "lint" "a.ts" [sampleError] (JStr "red");
    ScrollBarOverlay_setMarkers (path_resolve "a.ts") "lint"
      [ {| marker_line := JNum (Qmake 3 1); marker_height := 1;
           marker_color := JStr "red" |} ] ].
Proof.
  apply (set_errors_marks_each_error "lint" "a.ts" [sampleError] JUndefined rendered).
  reflexivity.
Defined.

Lemma set_errors_nullish_item_throws_witness :
  outcome (handle (PluginManager_set_errors "lint" "a.ts" [sampleError; JNull]
                     (JStr "orange")) rendered) =
  Thrown (TypeError "Cannot read property lineNumber").
Proof.
  apply (set_errors_nullish_item_throws "lint" "a.ts" [sampleError; JNull]
           (JStr "orange") rendered).
  reflexivity.
Defined.



Lemma startup_failure_is_never_cleared_witness :
  _errorStartingNeovim
    (this (fst (run [Call_init ["README.md"]; Call_render 7%nat;
                     Config_listener sampleConfig] failed))) = true.
Proof.
  apply (startup_failure_is_never_cleared
           [Call_init ["README.md"]; Call_render 7%nat; Config_listener sampleConfig]
           failed).
  vm_compute. reflexivity.
Defined.

Lemma log_entries_only_from_log_events_witness :
  is_log_event (NeovimInstance (Ev_logWarning "slow plugin")) = true.
Proof.
  apply (log_entries_only_from_log_events
           (NeovimInstance (Ev_logWarning "slow plugin")) rendered
           {| log_type := "warning"; log_message := "slow plugin";
              log_details := None |}).
  vm_compute. left. reflexivity.
Defined.

Lemma input_only_from_keyboard_and_mouse_witness :
  Mouse_mouse "<LeftMouse>" = Keyboard_keydown "<LeftMouse>" \/
  Mouse_mouse "<LeftMouse>" = Mouse_mouse "<LeftMouse>".
Proof.
  apply (input_only_from_keyboard_and_mouse (Mouse_mouse "<LeftMouse>") rendered
           "<LeftMouse>").
  vm_compute. right. left. reflexivity.
Defined.


Lemma normal_mode_hides_completions_witness :
  completionsVisible
    (store (after (handle (NeovimInstance (Ev_mode_change "normal"))
                          completionsShowing))) = false.
Proof.
  assert (Hr : reachable completionsShowing).
  { apply reach_store. apply reach_event; [apply reach_new | exact I]. }
  apply (normal_mode_hides_completions completionsShowing Hr).
Defined.


Lemma vim_event_is_passed_on_witness :
  emitted (handle (NeovimInstance (Ev_event "DirChanged" JNull)) rendered) =
  [ ErrorOverlay_onVimEvent "DirChanged" JNull;
    LiveEvaluationOverlay_onVimEvent "DirChanged" JNull;
    ScrollBarOverlay_onVimEvent "DirChanged" JNull;
    Tasks_onEvent JNull;
    Neovim Nv_getCurrentWorkingDirectory ].
Proof.
  apply (vim_event_is_passed_on "DirChanged" JNull rendered). discriminate.
Defined.

Lemma config_change_cancels_deferred_update_witness :
  In (ClearTimeout 1%positive) (emitted (handle (Config_listener sampleConfig) updatePending)) /\
  timers (after (handle (Config_listener sampleConfig) updatePending)) = [].
Proof.
  assert (Hr : reachable updatePending).
  { apply reach_event; [ | exact I]. apply reach_event; [apply reach_new | exact I]. }
  destruct (config_change_cancels_deferred_update sampleConfig updatePending Hr)
    as (_ & Hclear & _ & Hnone & _).
  split; [apply Hclear; reflexivity | exact Hnone].
Defined.

Lemma only_the_pending_timeout_fires_witness :
  emitted (handle (Timeout_fired 1%positive) updatePending) =
  [Dispatch (SetCursorPosition blankScreen); ClearTimeout 1%positive].
Proof.
  assert (Hr : reachable updatePending).
  { apply reach_event; [ | exact I]. apply reach_event; [apply reach_new | exact I]. }
  assert (Hen : enabled updatePending (Timeout_fired 1%positive)).
  { vm_compute. left. reflexivity. }
  apply (only_the_pending_timeout_fires updatePending 1%positive Hr Hen).
Defined.
